(** * Account validation: the CSV codec of the bulk-upload handler

    A shallow embedding of the hand-written logic of [src/App.tsx]:
    the row tokenizer [robustParseCsvRow], the table parser and the
    sequential verification loop of [handleBulkUpload], and the two
    result serializers [handleDownloadResults] and
    [handleDownloadAllResults].

    JavaScript strings are modelled as [string], one [ascii] per code
    unit, so the model covers texts whose code units lie in the range
    U+0000 to U+00FF.  [trim] and [toLowerCase] follow ECMAScript on
    that range. *)

From Stdlib Require Import String Ascii List Bool Arith Lia.
From Stdlib Require Import DecimalString.
From Stdlib Require Import Sorted Permutation.
Import ListNotations.
Open Scope list_scope.
Open Scope string_scope.

(** ** Characters and strings *)

Module Js.

Definition dquote : ascii := "034"%char.
Definition comma : ascii := ","%char.
Definition hyphen : ascii := "-"%char.
Definition lf : ascii := "010"%char.
Definition cr : ascii := "013"%char.

(** One-character strings. *)
Definition str (c : ascii) : string := String c "".

(** ECMAScript WhiteSpace and LineTerminator code units below U+0100:
    TAB, LF, VT, FF, CR, SPACE and NO-BREAK SPACE. *)
Definition isWhiteSpace (c : ascii) : bool :=
  let n := nat_of_ascii c in
  (((9 <=? n) && (n <=? 13)) || (n =? 32) || (n =? 160))%nat.

(** [String.prototype.trimStart]. *)
Fixpoint trimStart (s : string) : string :=
  match s with
  | "" => ""
  | String c r => if isWhiteSpace c then trimStart r else s
  end.

Definition isEmpty (s : string) : bool :=
  match s with "" => true | _ => false end.

(** [String.prototype.trimEnd]: a white-space character is kept exactly
    when something survives to its right. *)
Fixpoint trimEnd (s : string) : string :=
  match s with
  | "" => ""
  | String c r =>
      let r' := trimEnd r in
      if isWhiteSpace c && isEmpty r' then "" else String c r'
  end.

(** [String.prototype.trim]. *)
Definition trim (s : string) : string := trimEnd (trimStart s).

(** [String.prototype.toLowerCase] on one code unit below U+0100:
    A-Z and the Latin-1 capitals U+00C0-U+00DE (U+00D7, the
    multiplication sign, apart) move up by 32. *)
Definition lowerChar (c : ascii) : ascii :=
  let n := nat_of_ascii c in
  if (((65 <=? n) && (n <=? 90))
      || ((192 <=? n) && (n <=? 222) && negb (n =? 215)))%nat
  then ascii_of_nat (n + 32) else c.

Fixpoint toLowerCase (s : string) : string :=
  match s with
  | "" => ""
  | String c r => String (lowerChar c) (toLowerCase r)
  end.

(** [Array.prototype.join]. *)
Definition join (sep : string) (l : list string) : string :=
  String.concat sep l.

(** [Array.prototype.includes] on strings. *)
Definition includes (l : list string) (x : string) : bool :=
  existsb (String.eqb x) l.

(** [String.prototype.includes] for a single character. *)
Fixpoint hasChar (c : ascii) (s : string) : bool :=
  match s with
  | "" => false
  | String d r => Ascii.eqb d c || hasChar c r
  end.

(** [String.prototype.split] with a one-character separator. *)
Fixpoint splitOn (sep : ascii) (s : string) : list string :=
  match s with
  | "" => [""]
  | String c r =>
      match splitOn sep r with
      | [] => [""]
      | piece :: pieces =>
          if Ascii.eqb c sep then "" :: piece :: pieces
          else String c piece :: pieces
      end
  end.

(** Number-to-string conversion of a template literal. *)
Definition ofNat (n : nat) : string :=
  NilZero.string_of_uint (Nat.to_uint n).

(** [x ?? d] and [x || d] for a possibly undefined array element. *)
Definition orElse {A} (o : option A) (d : A) : A :=
  match o with Some a => a | None => d end.

End Js.

Import Js.

(** ** The row tokenizer, [robustParseCsvRow] *)

(** The loop of [robustParseCsvRow], from position [i] on: [row] is the
    rest of the text at [i], and the state is the three locals
    [values], [currentVal] and [inQuotes].  The escaped-quote branch
    looks one character ahead and skips it. *)
Fixpoint parseRowFrom (row : string) (values : list string)
    (currentVal : string) (inQuotes : bool) : list string :=
  match row with
  | "" => (values ++ [trim currentVal])%list
  | String char rest =>
      if Ascii.eqb char dquote then
        match rest with
        | String next rest' =>
            if inQuotes && Ascii.eqb next dquote
            then parseRowFrom rest' values (currentVal ++ str dquote) inQuotes
            else parseRowFrom rest values currentVal (negb inQuotes)
        | "" => parseRowFrom rest values currentVal (negb inQuotes)
        end
      else if Ascii.eqb char comma && negb inQuotes then
        parseRowFrom rest (values ++ [trim currentVal])%list "" inQuotes
      else
        parseRowFrom rest values (currentVal ++ str char) inQuotes
  end.

Definition robustParseCsvRow (row : string) : list string :=
  parseRowFrom row [] "" false.

(** ** Data model, [src/types.ts] *)

Record AccountDetails := {
  beneficiaryName : string;
  bankName : string;
  accountNumber : string;
  bvn : string
}.

Record VerificationResultData := {
  success : bool;
  message : string;
  data : option AccountDetails
}.

(** ** String-keyed maps

    The header lookup object and the [seen] map of the duplicate check:
    an association list in insertion order, as [Map.prototype.entries]
    enumerates it; [set] on a present key keeps its position. *)

Module StrMap.

Definition t (V : Type) : Type := list (string * V).

Fixpoint get {V} (m : t V) (k : string) : option V :=
  match m with
  | [] => None
  | (k', v) :: m' => if String.eqb k' k then Some v else get m' k
  end.

Fixpoint set {V} (m : t V) (k : string) (v : V) : t V :=
  match m with
  | [] => [(k, v)]
  | (k', v') :: m' =>
      if String.eqb k' k then (k', v) :: m' else (k', v') :: set m' k v
  end.

End StrMap.

(** ** The table parser of [handleBulkUpload] *)

Definition nl : string := str lf.

(** Puts a character in front of the first line of a split text. *)
Definition pushChar (c : ascii) (l : list string) : list string :=
  match l with
  | [] => [str c]
  | line :: lines => String c line :: lines
  end.

(** [text.split(/\r?\n/)]: a line feed ends a line, and a carriage
    return right before it belongs to the separator. *)
Fixpoint splitLines (text : string) : list string :=
  match text with
  | "" => [""]
  | String c r =>
      if Ascii.eqb c lf then "" :: splitLines r
      else
        match r with
        | String c' r' =>
            if Ascii.eqb c cr && Ascii.eqb c' lf then "" :: splitLines r'
            else pushChar c (splitLines r)
        | "" => pushChar c (splitLines r)
        end
  end.

(** [line => line.trim() !== ''] *)
Definition nonBlank (line : string) : bool := negb (isEmpty (trim line)).

Definition linesOf (text : string) : list string :=
  filter nonBlank (splitLines text).

Definition requiredHeaders : list string :=
  ["beneficiaryName"; "bankName"; "accountNumber"; "bvn"].

(** [requiredHeaders.filter(rh => !header.includes(rh))] *)
Definition missingHeaders (header : list string) : list string :=
  filter (fun rh => negb (includes header rh)) requiredHeaders.

(** [header.reduce((acc, col, index) => { acc[col.trim()] = index; ... }, {})],
    from column [index] on.  Only the four required names are ever
    looked up, so the special property names of a JavaScript object
    play no part. *)
Fixpoint reduceHeader (header : list string) (index : nat)
    (acc : StrMap.t nat) : StrMap.t nat :=
  match header with
  | [] => acc
  | col :: rest => reduceHeader rest (S index) (StrMap.set acc (trim col) index)
  end.

Definition headerMapOf (header : list string) : StrMap.t nat :=
  reduceHeader header 0 [].

(** [data[headerMap[name]] ?? '']: an absent name or an index out of
    range reads [undefined], replaced by the empty string. *)
Definition cell (data : list string) (headerMap : StrMap.t nat)
    (name : string) : string :=
  match StrMap.get headerMap name with
  | Some i => orElse (nth_error data i) ""
  | None => ""
  end.

Definition accountOf (data : list string) (headerMap : StrMap.t nat)
    : AccountDetails :=
  {| beneficiaryName := cell data headerMap "beneficiaryName";
     bankName := cell data headerMap "bankName";
     accountNumber := cell data headerMap "accountNumber";
     bvn := cell data headerMap "bvn" |}.

(** [Object.values(account)] *)
Definition valuesOf (a : AccountDetails) : list string :=
  [beneficiaryName a; bankName a; accountNumber a; bvn a].

(** [Object.values(account).some(val => val.trim() !== '')] *)
Definition notCompletelyEmpty (a : AccountDetails) : bool :=
  existsb (fun val => negb (isEmpty (trim val))) (valuesOf a).

Definition rowError (rowNumber expected found : nat) : string :=
  "Row " ++ ofNat rowNumber ++ ": Mismatched column count. Expected "
  ++ ofNat expected ++ ", but found " ++ ofNat found ++ ".".

(** The two arrays the row loop fills. *)
Record RowsState := {
  accountsToVerify : list AccountDetails;
  parsingErrors : list string
}.

(** The body of [lines.slice(1).forEach((line, index) => ...)]. *)
Definition rowStep (header : list string) (headerMap : StrMap.t nat)
    (line : string) (index : nat) (st : RowsState) : RowsState :=
  let data := robustParseCsvRow line in
  if negb (length data =? length header)%nat then
    {| accountsToVerify := accountsToVerify st;
       parsingErrors :=
         (parsingErrors st
          ++ [rowError (index + 2) (length header) (length data)])%list |}
  else
    let account := accountOf data headerMap in
    if notCompletelyEmpty account then
      {| accountsToVerify := (accountsToVerify st ++ [account])%list;
         parsingErrors := parsingErrors st |}
    else st.

Fixpoint forEachRow (header : list string) (headerMap : StrMap.t nat)
    (rows : list string) (index : nat) (st : RowsState) : RowsState :=
  match rows with
  | [] => st
  | line :: rest =>
      forEachRow header headerMap rest (S index)
        (rowStep header headerMap line index st)
  end.

Definition parseRows (header : list string) (rows : list string)
    : RowsState :=
  forEachRow header (headerMapOf header) rows 0
    {| accountsToVerify := []; parsingErrors := [] |}.

(** The key of the duplicate check. *)
Definition keyOf (account : AccountDetails) : string :=
  toLowerCase (trim (accountNumber account) ++ "-" ++ trim (bankName account)).

(** [accountsToVerify.forEach(account => ...)] over the [seen] map. *)
Fixpoint countKeys (accounts : list AccountDetails) (seen : StrMap.t nat)
    : StrMap.t nat :=
  match accounts with
  | [] => seen
  | account :: rest =>
      let key := keyOf account in
      if negb (String.eqb key "-") then
        countKeys rest
          (StrMap.set seen key (orElse (StrMap.get seen key) 0 + 1))
      else countKeys rest seen
  end.

(** [Array.from(seen.entries()).filter(([, count]) => count > 1).map(([key]) => key)] *)
Definition duplicatesOf (accounts : list AccountDetails) : list string :=
  map fst (filter (fun e => (1 <? snd e)%nat) (countKeys accounts [])).

(** [const [acc, bank] = d.split('-')] inside the template literal; a
    missing part would print as [undefined]. *)
Definition duplicateMessage (d : string) : string :=
  let parts := splitOn hyphen d in
  "Account " ++ nth 0 parts "undefined" ++ " at " ++ nth 1 parts "undefined".

Definition headerErrorMessage (missing : list string) : string :=
  "Invalid CSV header. Missing required columns: " ++ join ", " missing ++ ".".

Definition parsingErrorMessage (errors : list string) : string :=
  "Could not parse the CSV file due to formatting issues:" ++ nl ++ nl
  ++ join nl errors.

Definition duplicateErrorMessage (duplicates : list string) : string :=
  "Duplicate entries found in the file. Please remove them and try again. Duplicates: "
  ++ join "; " (map duplicateMessage duplicates) ++ ".".

(** What the handler does with a text before any verification call:
    it either reports one message and returns, or goes on with the
    accepted records. *)
Inductive ParseOutcome :=
| Rejected (errorMessage : string)
| Accepted (accounts : list AccountDetails).

(** The part of the handler that works on the filtered lines. *)
Definition parseLines (lines : list string) : ParseOutcome :=
  if (length lines <=? 1)%nat then
    Rejected "CSV file is empty or contains only a header."
  else
    let header := robustParseCsvRow (hd "" lines) in
    let missing := missingHeaders header in
    if (0 <? length missing)%nat then Rejected (headerErrorMessage missing)
    else
      let st := parseRows header (tl lines) in
      if (0 <? length (parsingErrors st))%nat then
        Rejected (parsingErrorMessage (parsingErrors st))
      else
        let duplicates := duplicatesOf (accountsToVerify st) in
        if (0 <? length duplicates)%nat then
          Rejected (duplicateErrorMessage duplicates)
        else Accepted (accountsToVerify st).

Definition parseCsv (text : string) : ParseOutcome :=
  if isEmpty text then Rejected "Could not read the file."
  else parseLines (linesOf text).

(** ** The verification loop of [handleBulkUpload] *)

(** What a [catch] clause may receive: an [Error] with its message, or
    any other value. *)
Inductive Thrown :=
| ErrorObject (errMessage : string)
| OtherValue.

(** [err instanceof Error ? err.message : 'An unknown error occurred.'] *)
Definition bulkCatchMessage (err : Thrown) : string :=
  match err with
  | ErrorObject m => m
  | OtherValue => "An unknown error occurred."
  end.

(** The React state the handler writes. *)
Record UiState := {
  verificationResult : option VerificationResultData;
  isModalOpen : bool;
  bulkResults : list VerificationResultData;
  isBulkVerifying : bool;
  isBulkModalOpen : bool
}.

(** [setVerificationResult({ success: false, message, data: null }); setIsModalOpen(true)] *)
Definition reportFailure (ui : UiState) (msg : string) : UiState :=
  {| verificationResult :=
       Some {| success := false; message := msg; data := None |};
     isModalOpen := true;
     bulkResults := bulkResults ui;
     isBulkVerifying := isBulkVerifying ui;
     isBulkModalOpen := isBulkModalOpen ui |}.

(** [setBulkResults(results); setIsBulkVerifying(false); setIsBulkModalOpen(true)],
    after [setIsBulkVerifying(true); setBulkResults([])]. *)
Definition showBulkResults (ui : UiState)
    (results : list VerificationResultData) : UiState :=
  {| verificationResult := verificationResult ui;
     isModalOpen := isModalOpen ui;
     bulkResults := results;
     isBulkVerifying := false;
     isBulkModalOpen := true |}.

Section Verification.

(** The external collaborator: [World] is everything the awaited call
    may read and change (the remote service, the clock); a call
    either resolves with a result or rejects with a thrown value. *)
Variable World : Type.
Variable verifyAccountDetails :
  AccountDetails -> World -> (VerificationResultData + Thrown) * World.

(** One turn of [for (const account of accountsToVerify)]: the
    [try]/[catch] around the awaited call. *)
Definition verifyOne (account : AccountDetails) (w : World)
    : VerificationResultData * World :=
  match verifyAccountDetails account w with
  | (inl result, w') => (result, w')
  | (inr err, w') =>
      ({| success := false; message := bulkCatchMessage err;
          data := Some account |}, w')
  end.

Fixpoint verifyLoop (accounts : list AccountDetails)
    (results : list VerificationResultData) (w : World)
    : list VerificationResultData * World :=
  match accounts with
  | [] => (results, w)
  | account :: rest =>
      let (result, w') := verifyOne account w in
      verifyLoop rest (results ++ [result])%list w'
  end.

(** [reader.onload] of [handleBulkUpload], on the text read. *)
Definition handleBulkUpload (text : string) (ui : UiState) (w : World)
    : UiState * World :=
  match parseCsv text with
  | Rejected msg => (reportFailure ui msg, w)
  | Accepted accounts =>
      let (results, w') := verifyLoop accounts [] w in
      (showBulkResults ui results, w')
  end.

(** The state of the collaborator when the call for the record at
    position [i] is made. *)
Fixpoint worldBefore (accounts : list AccountDetails) (w : World)
    (i : nat) : World :=
  match i, accounts with
  | S i', account :: rest =>
      worldBefore rest (snd (verifyAccountDetails account w)) i'
  | _, _ => w
  end.

End Verification.

(** ** The result serializers *)

Definition csvHeaders4 : list string :=
  ["beneficiaryName"; "bankName"; "accountNumber"; "bvn"].

Definition csvHeaders6 : list string :=
  ["beneficiaryName"; "bankName"; "accountNumber"; "bvn"; "status"; "message"].

(** The global [replace] of [formatCsvField]: every double-quote is
    doubled. *)
Fixpoint doubleQuotes (field : string) : string :=
  match field with
  | "" => ""
  | String c r =>
      if Ascii.eqb c dquote then String dquote (String dquote (doubleQuotes r))
      else String c (doubleQuotes r)
  end.

(** The regular-expression test of [formatCsvField]: a double-quote,
    a comma or a line feed occurs in [s]. *)
Definition needsQuoting (s : string) : bool :=
  hasChar dquote s || hasChar comma s || hasChar lf s.

Definition formatCsvField (field : string) : string :=
  let cleanField := doubleQuotes field in
  if needsQuoting cleanField then str dquote ++ cleanField ++ str dquote
  else cleanField.

(** [data?.f || ''] *)
Definition fieldOr (data : option AccountDetails)
    (f : AccountDetails -> string) : string :=
  match data with Some d => f d | None => "" end.

(** One row of the all-results file. *)
Definition allResultsCells (r : VerificationResultData) : list string :=
  [fieldOr (data r) beneficiaryName;
   fieldOr (data r) bankName;
   fieldOr (data r) accountNumber;
   fieldOr (data r) bvn;
   if success r then "Success" else "Failed";
   formatCsvField (message r)].

Definition allResultsRow (r : VerificationResultData) : string :=
  join "," (allResultsCells r).

(** [handleDownloadAllResults]: the text of the downloaded file, or
    nothing when there are no results. *)
Definition handleDownloadAllResults (results : list VerificationResultData)
    : option string :=
  if (length results =? 0)%nat then None
  else Some (join nl (join "," csvHeaders6 :: map allResultsRow results)).

Definition isSuccessful (r : VerificationResultData) : bool :=
  success r && match data r with Some _ => true | None => false end.

Definition successRow (r : VerificationResultData) : string :=
  join "," [fieldOr (data r) beneficiaryName; fieldOr (data r) bankName;
            fieldOr (data r) accountNumber; fieldOr (data r) bvn].

(** [handleDownloadResults] *)
Definition handleDownloadResults (results : list VerificationResultData)
    : option string :=
  let successfulResults := filter isSuccessful results in
  if (length successfulResults =? 0)%nat then None
  else Some (join nl (join "," csvHeaders4 :: map successRow successfulResults)).

(** ** Specification-side notions used in the statements *)

Definition q : string := str dquote.

(** The default element of record lookups by position. *)
Definition noAccount : AccountDetails :=
  {| beneficiaryName := ""; bankName := ""; accountNumber := ""; bvn := "" |}.

(** An outcome as the verification service words it: the returned
    beneficiary name is the formal form, family name first. *)
Definition formalNameOutcome : VerificationResultData :=
  {| success := true;
     message := "Account details verified successfully.";
     data := Some {| beneficiaryName := "Doe, John Adewale";
                     bankName := "Zenith Bank";
                     accountNumber := "0123456789";
                     bvn := "22345678901" |} |}.


Definition sampleAccount (name number : string) : AccountDetails :=
  {| beneficiaryName := name; bankName := "Zenith";
     accountNumber := number; bvn := "22345678901" |}.

(** The four fields of a record, by name. *)
Definition fieldByName (name : string) (a : AccountDetails) : string :=
  if String.eqb name "beneficiaryName" then beneficiaryName a
  else if String.eqb name "bankName" then bankName a
  else if String.eqb name "accountNumber" then accountNumber a
  else if String.eqb name "bvn" then bvn a
  else "".

(** A string without leading or trailing white space. *)
Definition trimmed (s : string) : Prop := trim s = s.

(** Applies [f] to the first, respectively the last, element. *)
Definition mapHead {A} (f : A -> A) (l : list A) : list A :=
  match l with
  | [] => []
  | x :: r => f x :: r
  end.

Fixpoint mapLast {A} (f : A -> A) (l : list A) : list A :=
  match l with
  | [] => []
  | [x] => [f x]
  | x :: r => x :: mapLast f r
  end.

(** Where [currentVal] ends up when the text that follows is split. *)
Definition prepend (cur : string) (pieces : list string) : list string :=
  match pieces with
  | [] => [cur]
  | p :: ps => (cur ++ p) :: ps
  end.

(** The record a data row contributes, if any, and the error it
    contributes, if any. *)
Definition rowRecords (header : list string) (headerMap : StrMap.t nat)
    (line : string) : list AccountDetails :=
  let data := robustParseCsvRow line in
  if (length data =? length header)%nat then
    if notCompletelyEmpty (accountOf data headerMap)
    then [accountOf data headerMap] else []
  else [].

Definition mismatched (header : list string) (line : string) : bool :=
  negb (length (robustParseCsvRow line) =? length header)%nat.

Definition rowErrors (header : list string) (line : string) (index : nat)
    : list string :=
  if mismatched header line then
    [rowError (index + 2) (length header) (length (robustParseCsvRow line))]
  else [].

Fixpoint errorsFrom (header : list string) (rows : list string) (index : nat)
    : list string :=
  match rows with
  | [] => []
  | line :: rest =>
      (rowErrors header line index ++ errorsFrom header rest (S index))%list
  end.

(** The line with 1-based number [n] of the filtered lines; the header
    is line 1. *)
Definition lineNumbered (lines : list string) (n : nat) : string :=
  nth (n - 1) lines "".

(** The numbers of the data rows whose cell count differs from the
    header's, in increasing order. *)
Definition mismatchedRowNumbers (header : list string) (lines : list string)
    : list nat :=
  filter (fun n => mismatched header (lineNumbered lines n))
    (seq 2 (length lines - 1)).

(** The report of one mismatched row. *)
Definition mismatchReport (header : list string) (lines : list string)
    (n : nat) : string :=
  rowError n (length header)
    (length (robustParseCsvRow (lineNumbered lines n))).

(** The key pair of a record as the duplicate check compares it: both
    parts trimmed and lower-cased. *)
Definition pairOf (a : AccountDetails) : string * string :=
  (toLowerCase (trim (accountNumber a)), toLowerCase (trim (bankName a))).

(** How many records have the duplicate-check key [k]. *)
Definition occurrences (k : string) (accounts : list AccountDetails) : nat :=
  length (filter (fun a => String.eqb (keyOf a) k) accounts).

(** [i] is the rightmost column of [header] named [name]. *)
Definition rightmost (header : list string) (name : string) (i : nat)
    : Prop :=
  i < length header
  /\ nth i header "" = name
  /\ forall j, i < j -> j < length header -> nth j header "" <> name.

(** How often a character occurs in a string. *)
Fixpoint countChar (c : ascii) (s : string) : nat :=
  match s with
  | "" => 0
  | String d r => (if Ascii.eqb d c then 1 else 0) + countChar c r
  end.

(** A field that holds neither the delimiter nor a double-quote. *)
Definition plainField (s : string) : bool :=
  negb (hasChar comma s) && negb (hasChar dquote s).

(** The four fields of the record of an outcome, empty when the record
    is absent. *)
Definition recordFields (r : VerificationResultData) : list string :=
  [fieldOr (data r) beneficiaryName; fieldOr (data r) bankName;
   fieldOr (data r) accountNumber; fieldOr (data r) bvn].

(** A string of white space only. *)
Fixpoint allWhite (s : string) : bool :=
  match s with
  | "" => true
  | String c r => isWhiteSpace c && allWhite r
  end.

(** The last character of [s] is [c]. *)
Fixpoint endsWith (c : ascii) (s : string) : bool :=
  match s with
  | "" => false
  | String d "" => Ascii.eqb d c
  | String _ r => endsWith c r
  end.

(** The Windows line separator. *)
Definition crlf : string := String cr (String lf "").

(** A line that can stand between separators: it holds no line feed
    and does not end in a carriage return. *)
Definition okLine (l : string) : bool :=
  negb (hasChar lf l) && negb (endsWith cr l).

(** The records of the outcomes the successful-only file keeps. *)
Definition successfulRecords (results : list VerificationResultData)
    : list AccountDetails :=
  flat_map (fun r => if success r
                     then match data r with Some d => [d] | None => [] end
                     else []) results.

(** A record whose fields survive the unescaped export: no field holds
    a comma, a double-quote or a line feed, every field is trimmed,
    and not all of them are empty. *)
Definition exportable (a : AccountDetails) : bool :=
  forallb (fun f => plainField f && negb (hasChar lf f)
                    && String.eqb (trim f) f) (valuesOf a)
  && notCompletelyEmpty a.

(** ** The verification service, [src/services/geminiService.ts] *)

Module GeminiService.

(** What the [try] block of [verifyAccountDetails] gets from the model:
    the request or [JSON.parse] throws, or a value is parsed whose
    [success] is a boolean or not, whose [message] is a string or not
    ([None] stands for any other type), with its [data]. *)
Inductive Reply :=
| CallThrows (err : Thrown)
| Parsed (successField : option bool) (messageField : option string)
         (dataField : option AccountDetails).

Definition unavailableMessage : string :=
  "The verification service is currently unavailable. Please try again later.".

Section Service.

Variable World : Type.
Variable generateContent : AccountDetails -> World -> Reply * World.

(** [verifyAccountDetails]: the result is returned when both type
    checks pass; a reply of the wrong shape throws inside the [try],
    and the [catch] turns every failure into one fixed error. *)
Definition verifyAccountDetails (details : AccountDetails) (w : World)
    : (VerificationResultData + Thrown) * World :=
  match generateContent details w with
  | (Parsed (Some s) (Some m) d, w') =>
      (inl {| success := s; message := m; data := d |}, w')
  | (_, w') => (inr (ErrorObject unavailableMessage), w')
  end.

End Service.

End GeminiService.

(** ** The single verification of [handleVerification] *)

(** [err instanceof Error ? err.message : 'An unknown error occurred during verification.'] *)
Definition singleCatchMessage (err : Thrown) : string :=
  match err with
  | ErrorObject m => m
  | OtherValue => "An unknown error occurred during verification."
  end.

(** The state of the form: the handler state and the [isVerifying]
    flag. *)
Record FormState := {
  ui : UiState;
  isVerifying : bool
}.

Section SingleVerification.

Variable World : Type.
Variable verifyAccountDetails :
  AccountDetails -> World -> (VerificationResultData + Thrown) * World.

(** [handleVerification]: the result of the call, or on rejection a
    failed result with the submitted details; the [finally] block
    clears [isVerifying] and opens the modal. *)
Definition handleVerification (details : AccountDetails) (st : FormState)
    (w : World) : FormState * World :=
  let (outcome, w') := verifyAccountDetails details w in
  let result :=
    match outcome with
    | inl r => r
    | inr err => {| success := false; message := singleCatchMessage err;
                    data := Some details |}
    end in
  ({| ui := {| verificationResult := Some result;
               isModalOpen := true;
               bulkResults := bulkResults (ui st);
               isBulkVerifying := isBulkVerifying (ui st);
               isBulkModalOpen := isBulkModalOpen (ui st) |};
      isVerifying := false |}, w').

End SingleVerification.

(** What both handlers show for a record whose call failed, with the
    service of this repository. *)
Definition unavailableOutcome (account : AccountDetails)
    : VerificationResultData :=
  {| success := false; message := GeminiService.unavailableMessage;
     data := Some account |}.

(** What the service makes of a reply, for a given record. *)
Definition outcomeOfReply (account : AccountDetails)
    (reply : GeminiService.Reply) : VerificationResultData :=
  match reply with
  | GeminiService.Parsed (Some s) (Some m) d =>
      {| success := s; message := m; data := d |}
  | _ => unavailableOutcome account
  end.

(** A model that answers the second request with a reply of the wrong
    shape; its state counts the requests. *)
Definition secondReplyMalformed (account : AccountDetails) (calls : nat)
    : GeminiService.Reply * nat :=
  if (calls =? 1)%nat
  then (GeminiService.Parsed None (Some "ok") None, S calls)
  else (GeminiService.Parsed (Some true)
          (Some "Account details verified successfully.") (Some account),
        S calls).

(** ** The results table, [BulkResultsDisplay] *)

Module BulkResultsDisplay.

Inductive SortKey :=
| KeyBeneficiaryName
| KeyAccountNumber
| KeySuccess
| KeyMessage.

Inductive Direction := Ascending | Descending.

Record SortConfig := {
  key : SortKey;
  direction : Direction
}.

Definition sortKeyEqb (a b : SortKey) : bool :=
  match a, b with
  | KeyBeneficiaryName, KeyBeneficiaryName
  | KeyAccountNumber, KeyAccountNumber
  | KeySuccess, KeySuccess
  | KeyMessage, KeyMessage => true
  | _, _ => false
  end.

(** [results.filter(r => r.success).length] and
    [results.length - successfulCount]. *)
Definition successfulCount (results : list VerificationResultData) : nat :=
  length (filter success results).

Definition failedCount (results : list VerificationResultData) : nat :=
  length results - successfulCount results.

(** [requestSort]: descending only when the same key is already
    sorted ascending. *)
Definition requestSort (sortConfig : option SortConfig) (k : SortKey)
    : option SortConfig :=
  let d :=
    match sortConfig with
    | Some c =>
        match direction c with
        | Ascending => if sortKeyEqb (key c) k then Descending else Ascending
        | Descending => Ascending
        end
    | None => Ascending
    end in
  Some {| key := k; direction := d |}.

(** The values [getSortValue] returns: a number for the status, a
    lower-cased string for the other keys. *)
Inductive SortValue :=
| NumValue (n : nat)
| StrValue (s : string).

Definition getSortValue (item : VerificationResultData) (k : SortKey)
    : SortValue :=
  match k with
  | KeyBeneficiaryName =>
      StrValue (match data item with
                | Some d => toLowerCase (beneficiaryName d)
                | None => ""
                end)
  | KeyAccountNumber =>
      StrValue (match data item with
                | Some d => toLowerCase (accountNumber d)
                | None => ""
                end)
  | KeySuccess => NumValue (if success item then 1 else 0)
  | KeyMessage => StrValue (toLowerCase (message item))
  end.

(** The relational operator on two sort values of one key: numbers by
    size, strings by code units.  Values of different kinds never
    meet, since both come from the same key. *)
Definition valueLt (a b : SortValue) : bool :=
  match a, b with
  | NumValue x, NumValue y => (x <? y)%nat
  | StrValue x, StrValue y => String.ltb x y
  | _, _ => false
  end.

(** The comparator handed to [sort]: [Lt], [Gt] and [Eq] stand for
    the results -1, 1 and 0. *)
Definition compareFn (c : SortConfig) (a b : VerificationResultData)
    : comparison :=
  let aValue := getSortValue a (key c) in
  let bValue := getSortValue b (key c) in
  if valueLt aValue bValue then
    match direction c with Ascending => Lt | Descending => Gt end
  else if valueLt bValue aValue then
    match direction c with Ascending => Gt | Descending => Lt end
  else Eq.

(** [Array.prototype.sort] with a comparator: the language requires a
    stable sort, and for a consistent comparator the stable sorted
    order is unique; insertion from the right computes it. *)
Fixpoint insertSorted {A} (cmp : A -> A -> comparison) (x : A) (l : list A)
    : list A :=
  match l with
  | [] => [x]
  | y :: r =>
      match cmp x y with
      | Gt => y :: insertSorted cmp x r
      | _ => x :: l
      end
  end.

Definition sortWith {A} (cmp : A -> A -> comparison) (l : list A) : list A :=
  fold_right (insertSorted cmp) [] l.

(** [sortedResults]: a sorted copy, or the results as they are when
    there is no sort configuration. *)
Definition sortedResults (results : list VerificationResultData)
    (sortConfig : option SortConfig) : list VerificationResultData :=
  match sortConfig with
  | Some c => sortWith (compareFn c) results
  | None => results
  end.

(** Two neighbouring rows are in the order the configuration asks
    for. *)
Definition inOrder (c : SortConfig) (a b : VerificationResultData) : Prop :=
  match direction c with
  | Ascending =>
      valueLt (getSortValue b (key c)) (getSortValue a (key c)) = false
  | Descending =>
      valueLt (getSortValue a (key c)) (getSortValue b (key c)) = false
  end.

End BulkResultsDisplay.

(** ** The status dashboard, [NetworkStatusDashboard] *)

Module NetworkStatusDashboard.

Inductive BankNetworkStatus := OPERATIONAL | DEGRADED | OFFLINE.

Record BankStatus := {
  name : string;
  status : BankNetworkStatus
}.

(** [String.prototype.startsWith] and [String.prototype.includes]. *)
Fixpoint startsWith (s p : string) : bool :=
  match p, s with
  | "", _ => true
  | String a p', String b s' => Ascii.eqb a b && startsWith s' p'
  | String _ _, "" => false
  end.

Fixpoint includesString (s sub : string) : bool :=
  startsWith s sub
  || match s with
     | "" => false
     | String _ r => includesString r sub
     end.

(** [statuses.filter(bank => bank.name.toLowerCase().includes(searchTerm.toLowerCase()))] *)
Definition filteredStatuses (statuses : list BankStatus)
    (searchTerm : string) : list BankStatus :=
  filter (fun bank => includesString (toLowerCase (name bank))
                        (toLowerCase searchTerm)) statuses.

End NetworkStatusDashboard.

(** ** The bank list and its cache, [fetchBankData] *)

Module BankList.

Record BankData := {
  name : string;
  sortCode : string
}.

Definition bank (n c : string) : BankData := {| name := n; sortCode := c |}.

Definition fallbackBanks : list BankData :=
  [bank "Access Bank" "044150149";
   bank "Citibank" "023150005";
   bank "Ecobank Nigeria" "050150311";
   bank "Fidelity Bank" "0701504 Fidelity";
   bank "First Bank of Nigeria" "011151003";
   bank "First City Monument Bank (FCMB)" "214150018";
   bank "Guaranty Trust Holding Company (GTCO)" "058152052";
   bank "Jaiz Bank" "301080020";
   bank "Keystone Bank" "082150017";
   bank "Kuda Bank" "502110004";
   bank "Opay" "999992";
   bank "Palmpay" "999991";
   bank "Polaris Bank" "076151006";
   bank "Providus Bank" "101150013";
   bank "Stanbic IBTC Bank" "221150018";
   bank "Standard Chartered Bank" "068150015";
   bank "Sterling Bank" "232150016";
   bank "SunTrust Bank" "100150017";
   bank "TAJBank" "302080015";
   bank "Union Bank of Nigeria" "032150002";
   bank "United Bank for Africa (UBA)" "033153592";
   bank "Unity Bank" "215150015";
   bank "Wema Bank" "035150103";
   bank "Zenith Bank" "057150013"].

Section Cache.

(** The parts outside the code: the request to the model, which
    yields a well-formed list or fails (the request rejects, the reply
    does not parse, or it is not an array of name and sort-code
    strings), and the locale-aware sort by name. *)
Variable World : Type.
Variable requestBankData : World -> option (list BankData) * World.
Variable sortByName : list BankData -> list BankData.

(** The module-level [cachedBankData] is passed in and out. *)
Definition fetchBankData (cachedBankData : option (list BankData))
    (w : World) : list BankData * option (list BankData) * World :=
  match cachedBankData with
  | Some cached => (cached, cachedBankData, w)
  | None =>
      let (reply, w') := requestBankData w in
      let sorted :=
        sortByName (match reply with
                    | Some bankData => bankData
                    | None => fallbackBanks
                    end) in
      (sorted, Some sorted, w')
  end.

(** [n] calls one after the other, as the periodic refresh makes
    them: the lists returned, the final cache and the final state. *)
Fixpoint fetchRepeatedly (n : nat) (cachedBankData : option (list BankData))
    (w : World) : list (list BankData) * option (list BankData) * World :=
  match n with
  | 0 => ([], cachedBankData, w)
  | S n' =>
      let '(banks, cache', w') := fetchBankData cachedBankData w in
      let '(later, cache'', w'') := fetchRepeatedly n' cache' w' in
      (banks :: later, cache'', w'')
  end.

End Cache.

(** A model that fails on the first request and answers afterwards;
    its state counts the requests. *)
Definition failsOnce (calls : nat) : option (list BankData) * nat :=
  if (calls =? 0)%nat then (None, S calls)
  else (Some [bank "Zenith Bank" "057150013"], S calls).

End BankList.

(** * Facts about strings *)

Lemma append_nil_r (s : string) : s ++ "" = s.
Proof. induction s as [|c s IH]; simpl; [reflexivity | now rewrite IH]. Qed.

Lemma append_assoc (a b c : string) : (a ++ b) ++ c = a ++ (b ++ c).
Proof. induction a as [|x a IH]; simpl; [reflexivity | now rewrite IH]. Qed.

Lemma append_str (cur : string) (c : ascii) (p : string) :
  (cur ++ str c) ++ p = cur ++ String c p.
Proof. now rewrite append_assoc. Qed.

Lemma isEmpty_true (s : string) : isEmpty s = true <-> s = "".
Proof. destruct s; simpl; split; congruence. Qed.

(** ** Trimming *)

Lemma trimStart_idem (s : string) : trimStart (trimStart s) = trimStart s.
Proof.
  induction s as [|c r IH]; simpl; [reflexivity|].
  destruct (isWhiteSpace c) eqn:E; [exact IH | simpl; now rewrite E].
Qed.

Lemma trimEnd_idem (s : string) : trimEnd (trimEnd s) = trimEnd s.
Proof.
  induction s as [|c r IH]; simpl; [reflexivity|].
  destruct (isWhiteSpace c && isEmpty (trimEnd r)) eqn:E; [reflexivity|].
  simpl. now rewrite IH, E.
Qed.

Lemma trim_commute (s : string) : trimStart (trimEnd s) = trimEnd (trimStart s).
Proof.
  induction s as [|c r IH]; simpl; [reflexivity|].
  destruct (isWhiteSpace c) eqn:W; simpl.
  - destruct (isEmpty (trimEnd r)) eqn:E; simpl.
    + apply isEmpty_true in E. rewrite <- IH, E. reflexivity.
    + now rewrite W.
  - now rewrite W.
Qed.

Lemma trim_idem (s : string) : trim (trim s) = trim s.
Proof.
  unfold trim.
  now rewrite <- (trim_commute (trimEnd _)), trimEnd_idem, trim_commute,
    trimStart_idem.
Qed.

Lemma trim_trimStart (s : string) : trim (trimStart s) = trim s.
Proof. unfold trim. now rewrite trimStart_idem. Qed.

Lemma trim_trimEnd (s : string) : trim (trimEnd s) = trim s.
Proof. unfold trim. now rewrite trim_commute, trimEnd_idem. Qed.

Lemma trimEnd_empty_hasChar (d : ascii) (s : string) :
  isWhiteSpace d = false -> trimEnd s = "" -> hasChar d s = false.
Proof.
  intros Hd. induction s as [|c r IH]; simpl; [reflexivity|].
  destruct (isWhiteSpace c) eqn:W; simpl; [|discriminate].
  destruct (isEmpty (trimEnd r)) eqn:E; [|discriminate].
  intros _. rewrite IH by now apply isEmpty_true.
  destruct (Ascii.eqb_spec c d) as [->|]; [congruence | reflexivity].
Qed.

(** ** Splitting and joining *)

Lemma splitOn_nonempty (sep : ascii) (s : string) :
  exists p ps, splitOn sep s = p :: ps.
Proof.
  induction s as [|c r [p [ps IH]]]; simpl; [now eauto|].
  rewrite IH. destruct (Ascii.eqb c sep); eauto.
Qed.

Lemma join_cons2 (sep x y : string) (l : list string) :
  join sep (x :: y :: l) = x ++ sep ++ join sep (y :: l).
Proof. reflexivity. Qed.

Lemma join_splitOn (sep : ascii) (s : string) :
  join (str sep) (splitOn sep s) = s.
Proof.
  induction s as [|c r IH]; [reflexivity|].
  simpl. destruct (splitOn_nonempty sep r) as [p [ps E]].
  rewrite E in *. destruct (Ascii.eqb_spec c sep) as [->|].
  - rewrite join_cons2, IH. reflexivity.
  - destruct ps as [|p' ps].
    + simpl in *. now rewrite IH.
    + rewrite join_cons2 in *. change (String c p ++ ?x) with (String c (p ++ x)).
      now rewrite IH.
Qed.

Lemma splitOn_no_sep (sep : ascii) (s : string) :
  hasChar sep s = false -> splitOn sep s = [s].
Proof.
  induction s as [|c r IH]; simpl; [reflexivity|].
  intros H. apply orb_false_iff in H as [Hc Hr].
  rewrite (IH Hr), Hc. reflexivity.
Qed.

Lemma splitOn_trimStart (sep : ascii) (s : string) :
  isWhiteSpace sep = false ->
  splitOn sep (trimStart s) = mapHead trimStart (splitOn sep s).
Proof.
  intros Hs. induction s as [|c r IH]; [reflexivity|].
  simpl. destruct (splitOn_nonempty sep r) as [p [ps E]].
  destruct (isWhiteSpace c) eqn:W.
  - rewrite IH, E.
    destruct (Ascii.eqb_spec c sep) as [->|]; [congruence|].
    simpl. now rewrite W.
  - simpl. rewrite E. destruct (Ascii.eqb c sep); simpl; [reflexivity|].
    now rewrite W.
Qed.

Lemma splitOn_trimEnd (sep : ascii) (s : string) :
  isWhiteSpace sep = false ->
  splitOn sep (trimEnd s) = mapLast trimEnd (splitOn sep s).
Proof.
  intros Hs. induction s as [|c r IH]; [reflexivity|].
  simpl. destruct (splitOn_nonempty sep r) as [p [ps E]].
  destruct (isWhiteSpace c && isEmpty (trimEnd r)) eqn:C.
  - apply andb_true_iff in C as [W Er]. apply isEmpty_true in Er.
    rewrite (splitOn_no_sep sep r) by now apply trimEnd_empty_hasChar.
    destruct (Ascii.eqb_spec c sep) as [->|]; [congruence|].
    simpl. now rewrite W, Er.
  - simpl. rewrite IH, E.
    destruct (Ascii.eqb c sep) eqn:Ec.
    + destruct ps; reflexivity.
    + destruct ps as [|p' ps].
      * simpl.
        assert (p = r) as ->.
        { pose proof (join_splitOn sep r) as J. rewrite E in J. exact J. }
        now rewrite C.
      * simpl. destruct ps; reflexivity.
Qed.

Lemma map_trim_mapHead (l : list string) :
  map trim (mapHead trimStart l) = map trim l.
Proof. destruct l; simpl; [reflexivity | now rewrite trim_trimStart]. Qed.

Lemma map_trim_mapLast (l : list string) :
  map trim (mapLast trimEnd l) = map trim l.
Proof.
  induction l as [|x [|y l] IH]; simpl in *; [reflexivity| |].
  - now rewrite trim_trimEnd.
  - now rewrite IH.
Qed.

(** The cells of a row are those of the trimmed row, once trimmed. *)
Lemma map_trim_splitOn_trim (s : string) :
  map trim (splitOn comma (trim s)) = map trim (splitOn comma s).
Proof.
  unfold trim.
  rewrite splitOn_trimEnd, map_trim_mapLast by reflexivity.
  now rewrite splitOn_trimStart, map_trim_mapHead by reflexivity.
Qed.

(** * The row tokenizer *)

(** Outside quoted spans the tokenizer splits at the commas and trims. *)
Lemma parseRowFrom_unquoted (row : string) :
  hasChar dquote row = false ->
  forall values cur,
    parseRowFrom row values cur false
    = (values ++ map trim (prepend cur (splitOn comma row)))%list.
Proof.
  induction row as [|c r IH]; intros H values cur.
  - simpl. now rewrite append_nil_r.
  - simpl in H. apply orb_false_iff in H as [Hc Hr].
    simpl. rewrite Hc. destruct (splitOn_nonempty comma r) as [p [ps E]].
    destruct (Ascii.eqb c comma) eqn:Ec; simpl.
    + rewrite (IH Hr), E, <- app_assoc. simpl. now rewrite append_nil_r.
    + rewrite (IH Hr), E. simpl. now rewrite append_str.
Qed.

Lemma robustParseCsvRow_unquoted (row : string) :
  hasChar dquote row = false ->
  robustParseCsvRow row = map trim (splitOn comma row).
Proof.
  intros H. unfold robustParseCsvRow.
  rewrite (parseRowFrom_unquoted row H).
  destruct (splitOn_nonempty comma row) as [p [ps E]]. now rewrite E.
Qed.

(** Every cell the tokenizer emits is trimmed. *)
Lemma parseRowFrom_trimmed (row : string) :
  forall values cur inQuotes,
    Forall trimmed values ->
    Forall trimmed (parseRowFrom row values cur inQuotes).
Proof.
  assert (Hadd : forall values cur,
    Forall trimmed values -> Forall trimmed (values ++ [trim cur])).
  { intros values cur Hv. apply Forall_app. split; [exact Hv|].
    constructor; [apply trim_idem | constructor]. }
  assert (H : forall n row, String.length row <= n ->
    forall values cur inQuotes,
      Forall trimmed values ->
      Forall trimmed (parseRowFrom row values cur inQuotes)).
  { induction n as [|n IH]; intros [|c r] Hlen values cur inQuotes Hv;
      simpl in *; try (now apply Hadd); try lia.
    destruct (Ascii.eqb c dquote).
    - destruct r as [|c' r'].
      + simpl. now apply Hadd.
      + destruct (inQuotes && Ascii.eqb c' dquote).
        * apply IH; [simpl in *; lia | exact Hv].
        * apply IH; [simpl in *; lia | exact Hv].
    - destruct (Ascii.eqb c comma && negb inQuotes).
      + apply IH; [lia | now apply Hadd].
      + apply IH; [lia | exact Hv]. }
  exact (H (String.length row) row (le_n _)).
Qed.

Lemma robustParseCsvRow_trimmed (row : string) :
  Forall trimmed (robustParseCsvRow row).
Proof. apply parseRowFrom_trimmed. constructor. Qed.


(** The concrete tokenizer and parser cases of the specification. *)
Example tokenize_quoted_comma :
  robustParseCsvRow ("a," ++ q ++ "b,c" ++ q ++ ",d") = ["a"; "b,c"; "d"].
Proof. reflexivity. Qed.

Example tokenize_unterminated_quote :
  robustParseCsvRow ("a," ++ q ++ "b,c") = ["a"; "b,c"].
Proof. reflexivity. Qed.

Example splitLines_crlf :
  splitLines ("a" ++ str cr ++ nl ++ "b" ++ nl ++ str cr ++ "c")
  = ["a"; "b"; str cr ++ "c"].
Proof. reflexivity. Qed.

Example parse_one_record :
  parseCsv ("beneficiaryName,bankName,accountNumber,bvn" ++ nl
            ++ "Ada,Zenith,0123456789,12345678901")
  = Accepted [{| beneficiaryName := "Ada"; bankName := "Zenith";
                 accountNumber := "0123456789"; bvn := "12345678901" |}].
Proof. reflexivity. Qed.

(** C8, as stated, fails: the cells are trimmed one by one, so white
    space next to an inner comma is lost. *)
Lemma C8_counterexample :
  hasChar dquote "a, b" = false
  /\ hasChar lf "a, b" = false
  /\ join "," (robustParseCsvRow "a, b") = "a,b"
  /\ trim "a, b" = "a, b"
  /\ join "," (robustParseCsvRow "a, b") <> trim "a, b".
Proof. repeat split; try reflexivity. discriminate. Qed.

(** C8, amended. For every row without double-quotes in which each
    comma-separated cell of the trimmed row has no leading or trailing
    white space, tokenizing and rejoining with commas gives the trimmed
    row. *)
Theorem C8_tokenize_rejoin (row : string) :
  hasChar dquote row = false ->
  Forall trimmed (splitOn comma (trim row)) ->
  join "," (robustParseCsvRow row) = trim row.
Proof.
  intros Hq Hcells.
  rewrite (robustParseCsvRow_unquoted row Hq), <- map_trim_splitOn_trim.
  replace (map trim (splitOn comma (trim row))) with (splitOn comma (trim row)).
  - exact (join_splitOn comma (trim row)).
  - induction Hcells as [|x l Hx _ IH]; simpl; [reflexivity|].
    now rewrite Hx, <- IH.
Qed.

Lemma C8_tokenize_rejoin_witness :
  join "," (robustParseCsvRow "  Ada,Zenith Bank,,0123456789 ")
  = "Ada,Zenith Bank,,0123456789".
Proof.
  apply (C8_tokenize_rejoin "  Ada,Zenith Bank,,0123456789 ").
  - reflexivity.
  - repeat constructor.
Defined.

(** * String-keyed maps *)

Lemma get_set_same {V} (m : StrMap.t V) (k : string) (v : V) :
  StrMap.get (StrMap.set m k v) k = Some v.
Proof.
  induction m as [|[k' v'] m IH]; simpl.
  - now rewrite String.eqb_refl.
  - destruct (String.eqb k' k) eqn:E; simpl; rewrite E; [reflexivity | exact IH].
Qed.

Lemma get_set_other {V} (m : StrMap.t V) (k k' : string) (v : V) :
  k <> k' -> StrMap.get (StrMap.set m k v) k' = StrMap.get m k'.
Proof.
  intros Hne. induction m as [|[k0 v0] m IH]; simpl.
  - apply String.eqb_neq in Hne. now rewrite Hne.
  - destruct (String.eqb_spec k0 k) as [->|]; simpl.
    + apply String.eqb_neq in Hne. now rewrite Hne.
    + now rewrite IH.
Qed.

Lemma set_keys {V} (m : StrMap.t V) (k : string) (v : V) :
  map fst (StrMap.set m k v)
  = match StrMap.get m k with
    | Some _ => map fst m
    | None => (map fst m ++ [k])%list
    end.
Proof.
  induction m as [|[k' v'] m IH]; simpl; [reflexivity|].
  destruct (String.eqb k' k); simpl; [reflexivity|].
  rewrite IH. now destruct (StrMap.get m k).
Qed.

Lemma get_none_keys {V} (m : StrMap.t V) (k : string) :
  StrMap.get m k = None -> ~ In k (map fst m).
Proof.
  induction m as [|[k' v'] m IH]; simpl; [tauto|].
  destruct (String.eqb_spec k' k); [discriminate|].
  intros H [E|Hin]; [congruence | now apply IH].
Qed.

Lemma set_keys_NoDup {V} (m : StrMap.t V) (k : string) (v : V) :
  NoDup (map fst m) -> NoDup (map fst (StrMap.set m k v)).
Proof.
  intros Hm. rewrite set_keys. destruct (StrMap.get m k) eqn:G; [exact Hm|].
  apply NoDup_app; [exact Hm | repeat constructor; simpl; tauto |].
  intros x Hx [E|[]]. subst x. now apply (get_none_keys m k).
Qed.

Lemma entries_get {V} (m : StrMap.t V) (k : string) (v : V) :
  NoDup (map fst m) -> (In (k, v) m <-> StrMap.get m k = Some v).
Proof.
  induction m as [|[k' v'] m IH]; simpl; intros Hm.
  - split; [tauto | discriminate].
  - inversion Hm as [|? ? Hnotin Hm']; subst.
    destruct (String.eqb_spec k' k) as [->|Hne].
    + split.
      * intros [E|Hin]; [congruence|].
        exfalso. apply Hnotin. now apply (in_map fst) in Hin.
      * intros E. left. congruence.
    + rewrite <- (IH Hm'). split; [|tauto].
      intros [E|Hin]; [congruence | exact Hin].
Qed.

(** * The header lookup *)

Lemma reduceHeader_absent (header : list string) (name : string) :
  (forall j, j < length header -> trim (nth j header "") <> name) ->
  forall index acc,
    StrMap.get (reduceHeader header index acc) name = StrMap.get acc name.
Proof.
  induction header as [|col rest IH]; intros Habs index acc; [reflexivity|].
  simpl. rewrite IH.
  - apply get_set_other. exact (Habs 0 (Nat.lt_0_succ _)).
  - intros j Hj. apply (Habs (S j)). simpl. lia.
Qed.

(** The lookup object maps a name to the last column that bears it. *)
Lemma reduceHeader_last (header : list string) (name : string) :
  forall i index acc,
    i < length header ->
    trim (nth i header "") = name ->
    (forall j, i < j -> j < length header -> trim (nth j header "") <> name) ->
    StrMap.get (reduceHeader header index acc) name = Some (index + i).
Proof.
  induction header as [|col rest IH]; intros i index acc Hi Hname Hlast.
  - simpl in Hi. lia.
  - simpl. destruct i as [|i].
    + rewrite reduceHeader_absent.
      * simpl in Hname. rewrite Hname, get_set_same. f_equal. lia.
      * intros j Hj. apply (Hlast (S j)); simpl; lia.
    + rewrite (IH i).
      * f_equal. lia.
      * simpl in Hi. lia.
      * exact Hname.
      * intros j Hij Hj. apply (Hlast (S j)); simpl; lia.
Qed.

Lemma orElse_nth_error (data : list string) (i : nat) :
  orElse (nth_error data i) "" = nth i data "".
Proof.
  revert i. induction data as [|x data IH]; intros [|i]; simpl; auto.
Qed.

Lemma cell_rightmost (header data : list string) (name : string) (i : nat) :
  Forall trimmed header ->
  rightmost header name i ->
  cell data (headerMapOf header) name = nth i data "".
Proof.
  intros Htr (Hi & Hname & Hlast).
  assert (Hnth : forall j, j < length header ->
                           trim (nth j header "") = nth j header "").
  { intros j Hj. apply (proj1 (Forall_forall _ _) Htr). now apply nth_In. }
  unfold cell, headerMapOf. rewrite (reduceHeader_last header name i).
  - apply orElse_nth_error.
  - exact Hi.
  - now rewrite Hnth.
  - intros j Hij Hj. rewrite (Hnth j Hj). now apply Hlast.
Qed.

(** * The row loop *)

Lemma rowStep_spec (header : list string) (hm : StrMap.t nat)
    (line : string) (index : nat) (st : RowsState) :
  rowStep header hm line index st
  = {| accountsToVerify :=
         (accountsToVerify st ++ rowRecords header hm line)%list;
       parsingErrors :=
         (parsingErrors st ++ rowErrors header line index)%list |}.
Proof.
  unfold rowStep, rowRecords, rowErrors, mismatched.
  destruct (length (robustParseCsvRow line) =? length header)%nat; simpl.
  - destruct (notCompletelyEmpty _); simpl; rewrite ?app_nil_r;
      [reflexivity | now destruct st].
  - now rewrite app_nil_r.
Qed.

Lemma forEachRow_spec (header : list string) (hm : StrMap.t nat)
    (rows : list string) :
  forall index st,
    forEachRow header hm rows index st
    = {| accountsToVerify :=
           (accountsToVerify st ++ flat_map (rowRecords header hm) rows)%list;
         parsingErrors :=
           (parsingErrors st ++ errorsFrom header rows index)%list |}.
Proof.
  induction rows as [|line rest IH]; intros index st; simpl.
  - rewrite !app_nil_r. now destruct st.
  - rewrite IH, rowStep_spec. simpl. now rewrite <- !app_assoc.
Qed.

Lemma parseRows_accounts (header rows : list string) :
  accountsToVerify (parseRows header rows)
  = flat_map (rowRecords header (headerMapOf header)) rows.
Proof. unfold parseRows. now rewrite forEachRow_spec. Qed.

Lemma parseRows_errors (header rows : list string) :
  parsingErrors (parseRows header rows) = errorsFrom header rows 0.
Proof. unfold parseRows. now rewrite forEachRow_spec. Qed.

(** The errors of the rows from [index] on, by row number. *)
Lemma errorsFrom_numbers (header : list string) (rows : list string) :
  forall index,
    errorsFrom header rows index
    = map (fun n => rowError n (length header)
                      (length (robustParseCsvRow (nth (n - (index + 2)) rows ""))))
        (filter (fun n => mismatched header (nth (n - (index + 2)) rows ""))
           (seq (index + 2) (length rows))).
Proof.
  induction rows as [|line rest IH]; intros index; [reflexivity|].
  assert (Hshift : forall n, In n (seq (S index + 2) (length rest)) ->
            nth (n - (index + 2)) (line :: rest) ""
            = nth (n - (S index + 2)) rest "").
  { intros n Hn. apply in_seq in Hn.
    replace (n - (index + 2)) with (S (n - (S index + 2))) by lia.
    reflexivity. }
  cbn [errorsFrom length seq filter]. rewrite Nat.sub_diag.
  change (nth 0 (line :: rest) "") with line.
  change (S (index + 2)) with (S index + 2).
  rewrite (filter_ext_in
             (fun n => mismatched header (nth (n - (index + 2)) (line :: rest) ""))
             (fun n => mismatched header (nth (n - (S index + 2)) rest ""))).
  2:{ intros n Hn. now rewrite Hshift. }
  rewrite IH. unfold rowErrors.
  destruct (mismatched header line); cbn [app map].
  - rewrite Nat.sub_diag. change (nth 0 (line :: rest) "") with line.
    apply f_equal. apply map_ext_in. intros n Hn.
    apply filter_In in Hn as [Hn _]. now rewrite Hshift.
  - apply map_ext_in. intros n Hn.
    apply filter_In in Hn as [Hn _]. now rewrite Hshift.
Qed.

Lemma parseRows_errors_numbers (header : list string) (headerLine : string)
    (rows : list string) :
  parsingErrors (parseRows header rows)
  = map (mismatchReport header (headerLine :: rows))
      (mismatchedRowNumbers header (headerLine :: rows)).
Proof.
  rewrite parseRows_errors, errorsFrom_numbers.
  unfold mismatchReport, mismatchedRowNumbers, lineNumbered.
  cbn [length]. replace (S (length rows) - 1) with (length rows) by lia.
  assert (Hshift : forall n, In n (seq 2 (length rows)) ->
            nth (n - 1) (headerLine :: rows) "" = nth (n - (0 + 2)) rows "").
  { intros n Hn. apply in_seq in Hn.
    replace (n - 1) with (S (n - (0 + 2))) by lia. reflexivity. }
  cbn [Nat.add].
  rewrite (filter_ext_in
             (fun n => mismatched header (nth (n - 1) (headerLine :: rows) ""))
             (fun n => mismatched header (nth (n - 2) rows ""))).
  2:{ intros n Hn. now rewrite Hshift. }
  apply map_ext_in. intros n Hn. apply filter_In in Hn as [Hn _].
  now rewrite Hshift.
Qed.

Lemma errorsFrom_nil (header : list string) (rows : list string) :
  forall index,
    errorsFrom header rows index = []
    <-> Forall (fun line => mismatched header line = false) rows.
Proof.
  induction rows as [|line rest IH]; intros index; simpl.
  - split; [constructor | reflexivity].
  - unfold rowErrors. destruct (mismatched header line) eqn:M; simpl.
    + split; [discriminate | intros H; inversion H; congruence].
    + rewrite IH. split; [now constructor | intros H; now inversion H].
Qed.

Lemma fieldByName_accountOf (data : list string) (hm : StrMap.t nat)
    (name : string) :
  In name requiredHeaders ->
  fieldByName name (accountOf data hm) = cell data hm name.
Proof.
  intros [<-|[<-|[<-|[<-|[]]]]]; reflexivity.
Qed.

Lemma rowRecords_In (header : list string) (hm : StrMap.t nat)
    (rows : list string) (account : AccountDetails) :
  In account (flat_map (rowRecords header hm) rows) ->
  exists line,
    In line rows
    /\ length (robustParseCsvRow line) = length header
    /\ account = accountOf (robustParseCsvRow line) hm.
Proof.
  intros H. apply in_flat_map in H as [line [Hline Hin]].
  exists line. unfold rowRecords in Hin.
  destruct (Nat.eqb_spec (length (robustParseCsvRow line)) (length header))
    as [E|]; [|contradiction].
  destruct (notCompletelyEmpty _); [|contradiction].
  destruct Hin as [<-|[]]. auto.
Qed.

(** * The whole parse *)

Lemma linesOf_nonempty_text (text : string) :
  1 <= length (linesOf text) -> isEmpty text = false.
Proof. destruct text; simpl; [lia | reflexivity]. Qed.

Lemma parseCsv_lines (text : string) :
  2 <= length (linesOf text) -> parseCsv text = parseLines (linesOf text).
Proof.
  intros H. unfold parseCsv. rewrite linesOf_nonempty_text; [reflexivity | lia].
Qed.

Lemma missingHeaders_In (header : list string) (rh : string) :
  In rh (missingHeaders header) <-> In rh requiredHeaders /\ ~ In rh header.
Proof.
  unfold missingHeaders, includes. rewrite filter_In, negb_true_iff.
  split; intros [Hreq H]; split; try exact Hreq.
  - intros Hin.
    assert (existsb (String.eqb rh) header = true) as E; [|congruence].
    apply existsb_exists. exists rh. now rewrite String.eqb_refl.
  - destruct (existsb (String.eqb rh) header) eqn:E; [|reflexivity].
    apply existsb_exists in E as [x [Hx Ex]]. apply String.eqb_eq in Ex.
    subst. contradiction.
Qed.

Lemma length_pos_nonempty {A} (l : list A) :
  (0 <? length l)%nat = true <-> l <> [].
Proof.
  destruct l; simpl; split; try congruence; try discriminate; reflexivity.
Qed.

Lemma length_pos_empty {A} (l : list A) :
  (0 <? length l)%nat = false <-> l = [].
Proof.
  destruct l; simpl; split; intros H; try reflexivity; discriminate.
Qed.

(** The steps of [parseLines] on a header line and at least one row. *)
Lemma parseLines_header_error (headerLine : string) (row : string)
    (rows : list string) :
  missingHeaders (robustParseCsvRow headerLine) <> [] ->
  parseLines (headerLine :: row :: rows)
  = Rejected (headerErrorMessage (missingHeaders (robustParseCsvRow headerLine))).
Proof.
  intros H. unfold parseLines. cbn [length Nat.leb hd].
  now rewrite (proj2 (length_pos_nonempty _) H).
Qed.

Lemma parseLines_rows (headerLine : string) (row : string)
    (rows : list string) :
  missingHeaders (robustParseCsvRow headerLine) = [] ->
  parseLines (headerLine :: row :: rows)
  = let st := parseRows (robustParseCsvRow headerLine) (row :: rows) in
    if (0 <? length (parsingErrors st))%nat then
      Rejected (parsingErrorMessage (parsingErrors st))
    else
      let duplicates := duplicatesOf (accountsToVerify st) in
      if (0 <? length duplicates)%nat then
        Rejected (duplicateErrorMessage duplicates)
      else Accepted (accountsToVerify st).
Proof.
  intros H. unfold parseLines. cbn [length Nat.leb hd tl].
  now rewrite (proj2 (length_pos_empty _) H).
Qed.

Lemma two_lines (lines : list string) :
  2 <= length lines ->
  exists headerLine row rows, lines = headerLine :: row :: rows.
Proof.
  destruct lines as [|h [|r rows]]; simpl; intros H; try lia. eauto.
Qed.

(** C6. For every text with at least two non-blank lines in which a
    required field name is absent from the tokenized first line, the
    parse stops with the header error whose message lists exactly the
    missing required names, whatever the data rows are, and the
    verification service is not called. *)
Theorem C6_missing_header (text : string) :
  let lines := linesOf text in
  let header := robustParseCsvRow (hd "" lines) in
  2 <= length lines ->
  (exists rh, In rh requiredHeaders /\ ~ In rh header) ->
  let msg := "Invalid CSV header. Missing required columns: "
             ++ join ", " (missingHeaders header) ++ "." in
  parseCsv text = Rejected msg
  /\ (forall rh, In rh (missingHeaders header)
                 <-> In rh requiredHeaders /\ ~ In rh header)
  /\ forall World verify ui (w : World),
       handleBulkUpload World verify text ui w = (reportFailure ui msg, w).
Proof.
  intros lines header Hlen [rh Hrh] msg.
  assert (Hparse : parseCsv text = Rejected msg).
  { rewrite parseCsv_lines by exact Hlen.
    destruct (two_lines _ Hlen) as (h & r & rows & E).
    subst header lines msg. rewrite E in *. cbn [hd] in *.
    apply parseLines_header_error. intros Hnil.
    apply missingHeaders_In in Hrh. rewrite Hnil in Hrh. exact Hrh. }
  split; [exact Hparse|]. split; [intros; apply missingHeaders_In|].
  intros World verify ui w. unfold handleBulkUpload. now rewrite Hparse.
Qed.

Lemma C6_missing_header_witness :
  parseCsv ("beneficiaryName,bankName,accountNumber" ++ nl
            ++ "Ada,Zenith,0123456789")
  = Rejected "Invalid CSV header. Missing required columns: bvn.".
Proof.
  refine (proj1 (C6_missing_header
            ("beneficiaryName,bankName,accountNumber" ++ nl
             ++ "Ada,Zenith,0123456789") _ _)).
  - vm_compute. lia.
  - exists "bvn". split; [simpl; tauto|].
    vm_compute. intros [H|[H|[H|[]]]]; discriminate.
Defined.

Lemma mismatchedRowNumbers_In (header lines : list string) (n : nat) :
  In n (mismatchedRowNumbers header lines)
  <-> (2 <= n <= length lines
       /\ length (robustParseCsvRow (lineNumbered lines n)) <> length header).
Proof.
  unfold mismatchedRowNumbers, mismatched.
  rewrite filter_In, in_seq, negb_true_iff, Nat.eqb_neq. intuition lia.
Qed.

Lemma structural_errors_lines (h r : string) (rows : list string) :
  let lines := h :: r :: rows in
  let header := robustParseCsvRow h in
  missingHeaders header = [] ->
  (exists line,
      In line (r :: rows)
      /\ length (robustParseCsvRow line) <> length header) ->
  mismatchedRowNumbers header lines <> []
  /\ parseLines lines
     = Rejected (parsingErrorMessage
                   (map (mismatchReport header lines)
                      (mismatchedRowNumbers header lines))).
Proof.
  intros lines header Hhdr [line [Hline Hbad]].
  assert (Hnum : mismatchedRowNumbers header lines <> []).
  { apply (In_nth _ _ "") in Hline as [k [Hk Hnth]].
    assert (Hin : In (k + 2) (mismatchedRowNumbers header lines)).
    { apply mismatchedRowNumbers_In. subst lines. cbn [length] in *.
      split; [lia|].
      unfold lineNumbered. replace (k + 2 - 1) with (S k) by lia.
      cbn [nth]. cbn [nth] in Hnth. now rewrite Hnth. }
    intros Hnil. now rewrite Hnil in Hin. }
  split; [exact Hnum|]. subst lines.
  rewrite (parseLines_rows h r rows Hhdr). cbv zeta.
  rewrite (parseRows_errors_numbers _ h (r :: rows)).
  rewrite (proj2 (length_pos_nonempty _)); [reflexivity|].
  intros Hnil. apply map_eq_nil in Hnil. contradiction.
Qed.

(** C5. For every text whose header has the four required names and
    in which some data row has a cell count other than the header's,
    the operation fails with the formatting error: its message lists,
    in order, every such row with its 1-based number over the
    non-blank lines (the header being row 1), the header's cell count
    as expected and the row's as found; nothing is accepted and the
    verification service is not called. *)
Theorem C5_structural_errors (text : string) :
  let lines := linesOf text in
  let header := robustParseCsvRow (hd "" lines) in
  missingHeaders header = [] ->
  (exists line,
      In line (tl lines)
      /\ length (robustParseCsvRow line) <> length header) ->
  let numbers := mismatchedRowNumbers header lines in
  let report n :=
    "Row " ++ ofNat n ++ ": Mismatched column count. Expected "
    ++ ofNat (length header) ++ ", but found "
    ++ ofNat (length (robustParseCsvRow (lineNumbered lines n))) ++ "." in
  let msg := "Could not parse the CSV file due to formatting issues:"
             ++ nl ++ nl ++ join nl (map report numbers) in
  numbers <> []
  /\ (forall n, In n numbers
                <-> (2 <= n <= length lines
                     /\ length (robustParseCsvRow (lineNumbered lines n))
                        <> length header))
  /\ parseCsv text = Rejected msg
  /\ forall World verify ui (w : World),
       handleBulkUpload World verify text ui w = (reportFailure ui msg, w).
Proof.
  cbv zeta. intros Hhdr Hex.
  assert (Hlen : 2 <= length (linesOf text)).
  { destruct Hex as [line [Hline _]].
    destruct (linesOf text) as [|h [|r rows]]; simpl in *;
      try contradiction; lia. }
  pose proof (parseCsv_lines text Hlen) as Hcsv.
  destruct (two_lines _ Hlen) as (h & r & rows & E).
  rewrite E in *. cbn [hd tl] in *.
  destruct (structural_errors_lines h r rows Hhdr Hex) as [Hnum Hparse].
  rewrite Hparse in Hcsv.
  split; [exact Hnum|]. split; [intros; apply mismatchedRowNumbers_In|].
  split; [exact Hcsv|].
  intros World verify ui w. unfold handleBulkUpload. now rewrite Hcsv.
Qed.

Lemma C5_structural_errors_witness :
  parseCsv ("beneficiaryName,bankName,accountNumber,bvn" ++ nl
            ++ "Ada,Zenith,0123456789,12345678901,extra" ++ nl
            ++ "Bob,Access,0123456780,22345678901")
  = Rejected ("Could not parse the CSV file due to formatting issues:"
              ++ nl ++ nl
              ++ "Row 2: Mismatched column count. Expected 4, but found 5.").
Proof.
  refine (proj1 (proj2 (proj2 (C5_structural_errors
            ("beneficiaryName,bankName,accountNumber,bvn" ++ nl
             ++ "Ada,Zenith,0123456789,12345678901,extra" ++ nl
             ++ "Bob,Access,0123456780,22345678901") _ _)))).
  - reflexivity.
  - exists "Ada,Zenith,0123456789,12345678901,extra". split.
    + vm_compute. tauto.
    + vm_compute. lia.
Defined.

(** * Records built from rows *)

Lemma cell_cases (data : list string) (hm : StrMap.t nat) (name : string) :
  cell data hm name = "" \/ In (cell data hm name) data.
Proof.
  unfold cell. destruct (StrMap.get hm name) as [i|]; [|now left].
  destruct (nth_error data i) as [c|] eqn:E; simpl; [|now left].
  right. exact (nth_error_In _ _ E).
Qed.

Lemma notCompletelyEmpty_false (a : AccountDetails) :
  notCompletelyEmpty a = false
  <-> Forall (fun v => trim v = "") (valuesOf a).
Proof.
  unfold notCompletelyEmpty.
  rewrite <- not_true_iff_false, existsb_exists, Forall_forall.
  split.
  - intros H v Hv. destruct (trim v) eqn:E; [reflexivity|].
    exfalso. apply H. exists v. now rewrite E.
  - intros H [v [Hv E]]. now rewrite (H v Hv) in E.
Qed.

Lemma notCompletelyEmpty_true (a : AccountDetails) :
  notCompletelyEmpty a = true
  <-> Exists (fun v => trim v <> "") (valuesOf a).
Proof.
  unfold notCompletelyEmpty. rewrite existsb_exists, Exists_exists.
  split; intros [v [Hv E]]; exists v; split; try exact Hv.
  - intros H. now rewrite H in E.
  - now destruct (trim v).
Qed.

Lemma blank_row_account (data : list string) (hm : StrMap.t nat) :
  Forall (fun c => trim c = "") data ->
  notCompletelyEmpty (accountOf data hm) = false.
Proof.
  intros Hdata. apply notCompletelyEmpty_false.
  assert (H : forall name, trim (cell data hm name) = "").
  { intros name. destruct (cell_cases data hm name) as [->|Hin];
      [reflexivity|]. exact (proj1 (Forall_forall _ _) Hdata _ Hin). }
  repeat constructor; apply H.
Qed.

(** C3, as stated, fails: a row whose four fields are all non-empty is
    kept, not dropped. *)
Lemma C3_counterexample :
  let header := robustParseCsvRow "beneficiaryName,bankName,accountNumber,bvn" in
  let line := "Ada,Zenith,0123456789,12345678901" in
  let account := accountOf (robustParseCsvRow line) (headerMapOf header) in
  let st := {| accountsToVerify := []; parsingErrors := [] |} in
  length (robustParseCsvRow line) = length header
  /\ Forall (fun v => trim v <> "") (valuesOf account)
  /\ accountsToVerify (rowStep header (headerMapOf header) line 0 st)
     = [account]
  /\ rowStep header (headerMapOf header) line 0 st <> st.
Proof.
  split; [reflexivity|]. split; [repeat constructor; discriminate|].
  split; [reflexivity | discriminate].
Qed.

(** C3, amended. For every data row whose cell count equals the
    header's, the parser builds a record by reading each of the four
    required fields at its column index (a missing lookup reads as the
    empty string); if every field of the record is empty after
    trimming the record is dropped, and otherwise it is appended to
    the accepted records. *)
Theorem C3_record_of_row (header : list string) (line : string)
    (index : nat) (st : RowsState) :
  let hm := headerMapOf header in
  let data := robustParseCsvRow line in
  let account := accountOf data hm in
  length data = length header ->
  (forall name, In name requiredHeaders ->
      fieldByName name account
      = match StrMap.get hm name with
        | Some i => nth i data ""
        | None => ""
        end)
  /\ (Forall (fun v => trim v = "") (valuesOf account) ->
      rowStep header hm line index st = st)
  /\ (Exists (fun v => trim v <> "") (valuesOf account) ->
      rowStep header hm line index st
      = {| accountsToVerify := (accountsToVerify st ++ [account])%list;
           parsingErrors := parsingErrors st |}).
Proof.
  intros hm data account Hlen. split; [|split].
  - intros name Hname. subst account.
    rewrite fieldByName_accountOf by exact Hname. unfold cell.
    destruct (StrMap.get hm name); [apply orElse_nth_error | reflexivity].
  - intros Hempty. apply notCompletelyEmpty_false in Hempty.
    unfold rowStep. fold data. rewrite Hlen, Nat.eqb_refl. cbn [negb].
    fold hm account. now rewrite Hempty.
  - intros Hsome. apply notCompletelyEmpty_true in Hsome.
    unfold rowStep. fold data. rewrite Hlen, Nat.eqb_refl. cbn [negb].
    fold hm account. now rewrite Hsome.
Qed.

Lemma C3_record_of_row_witness :
  let header := robustParseCsvRow "beneficiaryName,bankName,accountNumber,bvn" in
  let st := {| accountsToVerify := []; parsingErrors := [] |} in
  rowStep header (headerMapOf header) " , ,," 0 st = st.
Proof.
  refine (proj1 (proj2 (C3_record_of_row
            (robustParseCsvRow "beneficiaryName,bankName,accountNumber,bvn")
            " , ,," 0 {| accountsToVerify := []; parsingErrors := [] |} _)) _).
  - reflexivity.
  - repeat constructor.
Defined.

(** C4, as stated, fails: a row of empty cells still counts in the
    numbering of later rows, and a batch made of such rows only is not
    reported as empty, so the batch is not processed as if the row
    were absent. *)
Lemma C4_counterexample :
  let headerLine := "beneficiaryName,bankName,accountNumber,bvn" in
  let header := robustParseCsvRow headerLine in
  length (robustParseCsvRow ",,,") = length header
  /\ Forall (fun c => trim c = "") (robustParseCsvRow ",,,")
  /\ parseLines [headerLine; ",,,"; "Ada,Zenith"]
     = Rejected (parsingErrorMessage
         ["Row 3: Mismatched column count. Expected 4, but found 2."])
  /\ parseLines [headerLine; "Ada,Zenith"]
     = Rejected (parsingErrorMessage
         ["Row 2: Mismatched column count. Expected 4, but found 2."])
  /\ parseLines [headerLine; ",,,"; "Ada,Zenith"]
     <> parseLines [headerLine; "Ada,Zenith"]
  /\ parseLines [headerLine; ",,,"] = Accepted []
  /\ parseLines [headerLine]
     = Rejected "CSV file is empty or contains only a header.".
Proof.
  split; [reflexivity|]. split; [repeat constructor|].
  split; [reflexivity|]. split; [reflexivity|].
  split; [vm_compute; discriminate|]. split; reflexivity.
Qed.

Lemma no_errors_rows (header rows : list string) :
  Forall (fun line => length (robustParseCsvRow line) = length header) rows ->
  parsingErrors (parseRows header rows) = [].
Proof.
  intros H. rewrite parseRows_errors. apply errorsFrom_nil.
  eapply Forall_impl; [|exact H]. intros l Hl. unfold mismatched.
  now rewrite Hl, Nat.eqb_refl.
Qed.

Lemma errorsFrom_app (header : list string) (pre post : list string) :
  forall index,
    errorsFrom header (pre ++ post) index
    = (errorsFrom header pre index
       ++ errorsFrom header post (index + length pre))%list.
Proof.
  induction pre as [|l pre IH]; intros index; simpl.
  - now rewrite Nat.add_0_r.
  - rewrite IH, <- app_assoc. do 3 f_equal. lia.
Qed.

(** C4, amended. A data row whose cell count equals the header's and
    whose cells are all empty after trimming yields no record and no
    error: the loop state is unchanged by it, only the row index moves
    on.  The accepted records of the batch are those of the batch
    without the row, there are structural errors with the row iff
    there are without it, and when there are none and other data rows
    exist the whole parse gives the same outcome as without the row.
    The row still counts as a line: the errors of the rows after it
    are numbered one higher than without it, and a batch whose only
    data rows are such rows is accepted with no record, whereas the
    header alone is refused as an empty file. *)
Theorem C4_blank_row (header : list string) (line : string) :
  length (robustParseCsvRow line) = length header ->
  Forall (fun c => trim c = "") (robustParseCsvRow line) ->
  (forall hm index st, rowStep header hm line index st = st)
  /\ (forall hm index st post,
        forEachRow header hm (line :: post) index st
        = forEachRow header hm post (S index) st)
  /\ (forall pre post,
        accountsToVerify (parseRows header (pre ++ line :: post))
        = accountsToVerify (parseRows header (pre ++ post)))
  /\ (forall pre post,
        parsingErrors (parseRows header (pre ++ line :: post)) = []
        <-> parsingErrors (parseRows header (pre ++ post)) = [])
  /\ (forall headerLine pre post,
        header = robustParseCsvRow headerLine ->
        (pre ++ post)%list <> [] ->
        parsingErrors (parseRows header (pre ++ post)) = [] ->
        parseLines (headerLine :: pre ++ line :: post)
        = parseLines (headerLine :: pre ++ post))
  /\ (forall pre post,
        parsingErrors (parseRows header (pre ++ line :: post))
        = (errorsFrom header pre 0
           ++ errorsFrom header post (S (length pre)))%list
        /\ parsingErrors (parseRows header (pre ++ post))
           = (errorsFrom header pre 0
              ++ errorsFrom header post (length pre))%list)
  /\ (forall headerLine blanks,
        header = robustParseCsvRow headerLine ->
        missingHeaders header = [] ->
        Forall (fun l => length (robustParseCsvRow l) = length header
                         /\ Forall (fun c => trim c = "")
                              (robustParseCsvRow l)) blanks ->
        parseLines (headerLine :: line :: blanks) = Accepted []
        /\ parseLines [headerLine]
           = Rejected "CSV file is empty or contains only a header.").
Proof.
  intros Hlen Hblank.
  assert (Hstep : forall hm index st, rowStep header hm line index st = st).
  { intros hm index st. unfold rowStep.
    rewrite Hlen, Nat.eqb_refl. cbn [negb].
    now rewrite blank_row_account. }
  assert (Hrec : forall hm, rowRecords header hm line = []).
  { intros hm. unfold rowRecords.
    now rewrite Hlen, Nat.eqb_refl, blank_row_account. }
  assert (Hok : mismatched header line = false).
  { unfold mismatched. now rewrite Hlen, Nat.eqb_refl. }
  assert (Hacc : forall pre post,
    accountsToVerify (parseRows header (pre ++ line :: post))
    = accountsToVerify (parseRows header (pre ++ post))).
  { intros pre post. rewrite !parseRows_accounts, !flat_map_app.
    cbn [flat_map]. now rewrite Hrec. }
  assert (Herr : forall pre post,
    parsingErrors (parseRows header (pre ++ line :: post)) = []
    <-> parsingErrors (parseRows header (pre ++ post)) = []).
  { intros pre post. rewrite !parseRows_errors, !errorsFrom_nil.
    rewrite !Forall_app. split.
    - intros [Hpre Hpost]. inversion Hpost. now split.
    - intros [Hpre Hpost]. split; [exact Hpre | now constructor]. }
  split; [exact Hstep|]. split; [|split; [exact Hacc|split; [exact Herr|]]].
  - intros hm index st post. cbn [forEachRow]. now rewrite Hstep.
  - split; [|split].
    + intros headerLine pre post -> Hne Hnoerr.
      assert (Hmiss : forall rows rows',
        rows <> [] -> rows' <> [] ->
        accountsToVerify (parseRows (robustParseCsvRow headerLine) rows)
        = accountsToVerify (parseRows (robustParseCsvRow headerLine) rows') ->
        parsingErrors (parseRows (robustParseCsvRow headerLine) rows) = [] ->
        parsingErrors (parseRows (robustParseCsvRow headerLine) rows') = [] ->
        parseLines (headerLine :: rows) = parseLines (headerLine :: rows')).
      { intros [|r rows] [|r' rows'] H1 H2 Ha He He'; try contradiction.
        destruct (missingHeaders (robustParseCsvRow headerLine)) eqn:M.
        - rewrite !parseLines_rows by exact M. cbv zeta.
          now rewrite He, He', Ha.
        - rewrite !parseLines_header_error; [reflexivity| |]; now rewrite M. }
      apply Hmiss.
      * now destruct pre.
      * exact Hne.
      * apply Hacc.
      * now apply Herr.
      * exact Hnoerr.
    + intros pre post. rewrite !parseRows_errors, !errorsFrom_app.
      cbn [errorsFrom Nat.add]. unfold rowErrors. rewrite Hok. cbn [app].
      split; [|reflexivity]. do 2 f_equal.
    + intros headerLine blanks -> Hhdr Hblanks. split; [|reflexivity].
      rewrite (parseLines_rows headerLine line blanks Hhdr). cbv zeta.
      assert (Ha : accountsToVerify
                     (parseRows (robustParseCsvRow headerLine) (line :: blanks))
                   = []).
      { rewrite parseRows_accounts. cbn [flat_map]. rewrite Hrec. cbn [app].
        induction Hblanks as [|l ls [Hl Hb] _ IH]; [reflexivity|].
        cbn [flat_map]. unfold rowRecords at 1.
        now rewrite Hl, Nat.eqb_refl, blank_row_account. }
      assert (He : parsingErrors
                     (parseRows (robustParseCsvRow headerLine) (line :: blanks))
                   = []).
      { apply no_errors_rows. constructor; [exact Hlen|].
        eapply Forall_impl; [|exact Hblanks]. now intros l [Hl _]. }
      rewrite He, Ha. reflexivity.
Qed.

Lemma C4_blank_row_witness :
  let headerLine := "beneficiaryName,bankName,accountNumber,bvn" in
  let row := "Ada,Zenith,0123456789,12345678901" in
  parseLines [headerLine; " , ,,"; row] = parseLines [headerLine; row]
  /\ parseLines [headerLine; " , ,,"; ",,,"] = Accepted []
  /\ parseLines [headerLine]
     = Rejected "CSV file is empty or contains only a header.".
Proof.
  destruct (C4_blank_row
              (robustParseCsvRow "beneficiaryName,bankName,accountNumber,bvn")
              " , ,,") as (_ & _ & _ & _ & Hsame & _ & Hblank).
  - reflexivity.
  - repeat constructor.
  - split.
    + apply (Hsame "beneficiaryName,bankName,accountNumber,bvn"
               [] ["Ada,Zenith,0123456789,12345678901"]);
        [reflexivity | discriminate | reflexivity].
    + apply (Hblank "beneficiaryName,bankName,accountNumber,bvn" [",,,"]);
        [reflexivity | reflexivity | repeat constructor].
Defined.

Lemma rowRecords_filter (header : list string) (hm : StrMap.t nat)
    (rows : list string) :
  flat_map (rowRecords header hm) rows
  = map (fun line => accountOf (robustParseCsvRow line) hm)
      (filter (fun line =>
                 (length (robustParseCsvRow line) =? length header)%nat
                 && notCompletelyEmpty (accountOf (robustParseCsvRow line) hm))
         rows).
Proof.
  induction rows as [|line rest IH]; [reflexivity|].
  cbn [flat_map filter]. unfold rowRecords at 1.
  destruct (length (robustParseCsvRow line) =? length header)%nat;
    cbn [andb]; [|exact IH].
  destruct (notCompletelyEmpty _); cbn [map app]; now rewrite IH.
Qed.

(** C10. When a required field name stands in several columns of the
    header, the lookup holds the rightmost of them.  The accepted
    records are the records of the rows that have the header's cell
    count and are not completely empty, in row order, and each of
    them takes its value for that field from that rightmost column of
    its row. *)
Theorem C10_rightmost_column (headerLine : string) (rows : list string)
    (name : string) (i : nat) :
  let header := robustParseCsvRow headerLine in
  In name requiredHeaders ->
  rightmost header name i ->
  StrMap.get (headerMapOf header) name = Some i
  /\ (forall account,
       In account (accountsToVerify (parseRows header rows)) ->
       exists line,
         In line rows
         /\ length (robustParseCsvRow line) = length header
         /\ account = accountOf (robustParseCsvRow line) (headerMapOf header)
         /\ fieldByName name account = nth i (robustParseCsvRow line) "")
  /\ accountsToVerify (parseRows header rows)
     = map (fun line => accountOf (robustParseCsvRow line) (headerMapOf header))
         (filter (fun line =>
                    (length (robustParseCsvRow line) =? length header)%nat
                    && notCompletelyEmpty
                         (accountOf (robustParseCsvRow line)
                            (headerMapOf header)))
            rows)
  /\ (forall line,
        In line rows ->
        length (robustParseCsvRow line) = length header ->
        notCompletelyEmpty
          (accountOf (robustParseCsvRow line) (headerMapOf header)) = true ->
        In (accountOf (robustParseCsvRow line) (headerMapOf header))
           (accountsToVerify (parseRows header rows))
        /\ fieldByName name
             (accountOf (robustParseCsvRow line) (headerMapOf header))
           = nth i (robustParseCsvRow line) "").
Proof.
  intros header Hname Hright.
  pose proof (robustParseCsvRow_trimmed headerLine) as Htr. fold header in Htr.
  split; [|split; [|split]].
  - destruct Hright as (Hi & Hn & Hlast).
    assert (Hnth : forall j, j < length header ->
                             trim (nth j header "") = nth j header "").
    { intros j Hj. apply (proj1 (Forall_forall _ _) Htr). now apply nth_In. }
    unfold headerMapOf. rewrite (reduceHeader_last header name i); auto.
    + now rewrite Hnth.
    + intros j Hij Hj. rewrite (Hnth j Hj). now apply Hlast.
  - intros account Hin. rewrite parseRows_accounts in Hin.
    apply rowRecords_In in Hin as (line & Hline & Hlen & ->).
    exists line. repeat split; auto.
    rewrite fieldByName_accountOf by exact Hname.
    now apply cell_rightmost.
  - rewrite parseRows_accounts. apply rowRecords_filter.
  - intros line Hline Hlen Hkept. split.
    + rewrite parseRows_accounts, rowRecords_filter.
      apply (in_map (fun l => accountOf (robustParseCsvRow l)
                                (headerMapOf header))).
      apply filter_In. split; [exact Hline|].
      now rewrite Hlen, Nat.eqb_refl, Hkept.
    + rewrite fieldByName_accountOf by exact Hname.
      now apply cell_rightmost.
Qed.

Lemma C10_rightmost_column_witness :
  let header :=
    robustParseCsvRow "bvn,beneficiaryName,bankName,accountNumber,bvn" in
  let rows := ["11111111111,Ada,Zenith,0123456789,22222222222";
               "too,short";
               "33333333333,Bob,Access,0123456780,44444444444"] in
  StrMap.get (headerMapOf header) "bvn" = Some 4
  /\ accountsToVerify (parseRows header rows)
     = [{| beneficiaryName := "Ada"; bankName := "Zenith";
           accountNumber := "0123456789"; bvn := "22222222222" |};
        {| beneficiaryName := "Bob"; bankName := "Access";
           accountNumber := "0123456780"; bvn := "44444444444" |}]
  /\ Forall (fun account =>
               fieldByName "bvn" account = "22222222222"
               \/ fieldByName "bvn" account = "44444444444")
       (accountsToVerify (parseRows header rows)).
Proof.
  destruct (C10_rightmost_column
              "bvn,beneficiaryName,bankName,accountNumber,bvn"
              ["11111111111,Ada,Zenith,0123456789,22222222222";
               "too,short";
               "33333333333,Bob,Access,0123456780,44444444444"] "bvn" 4)
    as (Hget & Hrec & Heq & _).
  - simpl. tauto.
  - split; [vm_compute; lia|]. split; [reflexivity|]. intros j H1 H2.
    vm_compute in H2. lia.
  - split; [exact Hget|]. split; [exact Heq|].
    apply Forall_forall. intros account Hin.
    destruct (Hrec account Hin)
      as (line & [<-|[<-|[<-|[]]]] & Hlen & _ & Hfield).
    + left. exact Hfield.
    + discriminate Hlen.
    + right. exact Hfield.
Defined.

(** * The verification loop *)

Section VerificationFacts.

Variable World : Type.
Variable verify :
  AccountDetails -> World -> (VerificationResultData + Thrown) * World.

Lemma verifyOne_world (account : AccountDetails) (w : World) :
  snd (verifyOne World verify account w) = snd (verify account w).
Proof. unfold verifyOne. now destruct (verify account w) as [[r|e] w']. Qed.

Lemma verifyLoop_spec (accounts : list AccountDetails) :
  forall results w,
    fst (verifyLoop World verify accounts results w)
    = (results
       ++ map (fun i =>
                 fst (verifyOne World verify
                        (nth i accounts noAccount)
                        (worldBefore World verify accounts w i)))
            (seq 0 (length accounts)))%list.
Proof.
  induction accounts as [|account rest IH]; intros results w.
  - simpl. now rewrite app_nil_r.
  - cbn [verifyLoop length seq map].
    pose proof (verifyOne_world account w) as Hw.
    destruct (verifyOne World verify account w) as [result w'] eqn:E.
    simpl in Hw. subst w'.
    rewrite IH, <- app_assoc, <- seq_shift, map_map. cbn [app nth worldBefore].
    rewrite E. reflexivity.
Qed.


Lemma verifyLoop_nth (accounts : list AccountDetails) (w : World)
    (i : nat) (account : AccountDetails) :
  nth_error accounts i = Some account ->
  nth_error (fst (verifyLoop World verify accounts [] w)) i
  = Some (fst (verifyOne World verify account
                 (worldBefore World verify accounts w i))).
Proof.
  intros H. rewrite verifyLoop_spec. cbn [app].
  assert (Hi : i < length accounts).
  { apply nth_error_Some. congruence. }
  rewrite (map_nth_error _ i (seq 0 (length accounts)) (d := i)).
  - now rewrite (nth_error_nth accounts i noAccount H).
  - rewrite (nth_error_nth' _ 0) by now rewrite length_seq.
    now rewrite seq_nth.
Qed.


End VerificationFacts.


(** * The all-results serializer *)

Lemma hasChar_doubleQuotes (c : ascii) (field : string) :
  hasChar c (doubleQuotes field) = hasChar c field.
Proof.
  induction field as [|d r IH]; [reflexivity|].
  cbn [doubleQuotes hasChar].
  destruct (Ascii.eqb_spec d dquote) as [->|]; cbn [hasChar]; rewrite IH.
  - now destruct (Ascii.eqb dquote c).
  - reflexivity.
Qed.

Lemma doubleQuotes_id (field : string) :
  hasChar dquote field = false -> doubleQuotes field = field.
Proof.
  induction field as [|d r IH]; [reflexivity|].
  cbn [doubleQuotes hasChar].
  intros H. apply orb_false_iff in H as [Hd Hr].
  now rewrite Hd, IH.
Qed.

(** The escaping rule, as [formatCsvField] implements it. *)
Lemma formatCsvField_rule (field : string) :
  formatCsvField field
  = if hasChar comma field || hasChar dquote field || hasChar lf field
    then str dquote ++ doubleQuotes field ++ str dquote
    else field.
Proof.
  unfold formatCsvField, needsQuoting. rewrite !hasChar_doubleQuotes.
  destruct (hasChar dquote field) eqn:Q.
  - now rewrite orb_true_r.
  - rewrite orb_false_r. cbn [orb].
    destruct (hasChar comma field || hasChar lf field); [reflexivity|].
    now apply doubleQuotes_id.
Qed.

(** A message with a comma is written quoted and reads back as
    itself. *)
Example message_round_trip :
  let r := {| success := false;
              message := "Invalid account number, please check.";
              data := None |} in
  allResultsRow r
  = ",,,,Failed," ++ q ++ "Invalid account number, please check." ++ q
  /\ nth 5 (robustParseCsvRow (allResultsRow r)) "" = message r.
Proof. split; reflexivity. Qed.

(** C2. The code at the failing input.  In the all-results row only
    the message column goes through the escaping rule; the four record
    columns are emitted as they are, so a beneficiary name with a comma
    is written unquoted and the row reads back as seven cells instead
    of six. *)
Theorem C2_record_columns_unescaped :
  (forall r, nth 5 (allResultsCells r) "" = formatCsvField (message r))
  /\ (forall field,
        formatCsvField field
        = if hasChar comma field || hasChar dquote field || hasChar lf field
          then str dquote ++ doubleQuotes field ++ str dquote
          else field)
  /\ hasChar comma (fieldOr (data formalNameOutcome) beneficiaryName) = true
  /\ nth 0 (allResultsCells formalNameOutcome) "" = "Doe, John Adewale"
  /\ nth 0 (allResultsCells formalNameOutcome) ""
     <> str dquote ++ "Doe, John Adewale" ++ str dquote
  /\ allResultsRow formalNameOutcome
     = "Doe, John Adewale,Zenith Bank,0123456789,22345678901,Success,Account details verified successfully."
  /\ length (allResultsCells formalNameOutcome) = 6
  /\ length (robustParseCsvRow (allResultsRow formalNameOutcome)) = 7.
Proof.
  split; [reflexivity|]. split; [exact formatCsvField_rule|].
  repeat split; discriminate.
Qed.

(** * The duplicate check *)

Lemma toLowerCase_app (a b : string) :
  toLowerCase (a ++ b) = toLowerCase a ++ toLowerCase b.
Proof. induction a as [|c a IH]; simpl; [reflexivity | now rewrite IH]. Qed.

Lemma keyOf_pair (a : AccountDetails) :
  keyOf a = fst (pairOf a) ++ "-" ++ snd (pairOf a).
Proof. unfold keyOf, pairOf. now rewrite !toLowerCase_app. Qed.

Lemma pairOf_keyOf (a b : AccountDetails) :
  pairOf a = pairOf b -> keyOf a = keyOf b.
Proof. intros H. now rewrite !keyOf_pair, H. Qed.

(** The key the check skips is the key of the empty pair only. *)
Lemma keyOf_hyphen (a : AccountDetails) :
  keyOf a = "-" <-> pairOf a = ("", "").
Proof.
  rewrite keyOf_pair. destruct (pairOf a) as [x y]. cbn [fst snd]. split.
  - destruct x as [|c x]; simpl.
    + intros H. injection H as ->. reflexivity.
    + intros H. injection H as _ H. destruct x; discriminate.
  - intros H. injection H as -> ->. reflexivity.
Qed.

Lemma occurrences_cons (k : string) (a : AccountDetails)
    (rest : list AccountDetails) :
  occurrences k (a :: rest)
  = (if String.eqb (keyOf a) k then 1 else 0) + occurrences k rest.
Proof. unfold occurrences. simpl. now destruct (String.eqb (keyOf a) k). Qed.

(** After the counting loop, [seen] holds for each key other than the
    skipped one the number of records that have it. *)
Lemma countKeys_get (accounts : list AccountDetails) (k : string) :
  k <> "-" ->
  forall seen,
    StrMap.get (countKeys accounts seen) k
    = match occurrences k accounts with
      | 0 => StrMap.get seen k
      | S _ as n => Some (orElse (StrMap.get seen k) 0 + n)
      end.
Proof.
  intros Hk. induction accounts as [|a rest IH]; intros seen; [reflexivity|].
  rewrite occurrences_cons. cbn [countKeys].
  destruct (String.eqb_spec (keyOf a) "-") as [E|E]; cbn [negb].
  - rewrite IH. destruct (String.eqb_spec (keyOf a) k); [congruence|].
    reflexivity.
  - rewrite IH. destruct (String.eqb_spec (keyOf a) k) as [->|Hne].
    + rewrite get_set_same. cbn [orElse].
      destruct (occurrences k rest); cbn [Nat.add]; f_equal; lia.
    + rewrite get_set_other by exact Hne. reflexivity.
Qed.

Lemma countKeys_get_hyphen (accounts : list AccountDetails) :
  forall seen,
    StrMap.get (countKeys accounts seen) "-" = StrMap.get seen "-".
Proof.
  induction accounts as [|a rest IH]; intros seen; [reflexivity|].
  cbn [countKeys].
  destruct (String.eqb_spec (keyOf a) "-") as [E|E]; cbn [negb];
    rewrite IH; [reflexivity|].
  now apply get_set_other.
Qed.

Lemma countKeys_NoDup (accounts : list AccountDetails) :
  forall seen,
    NoDup (map fst seen) -> NoDup (map fst (countKeys accounts seen)).
Proof.
  induction accounts as [|a rest IH]; intros seen Hseen; [exact Hseen|].
  cbn [countKeys]. destruct (negb _); apply IH; [|exact Hseen].
  now apply set_keys_NoDup.
Qed.

(** The reported keys are the keys, other than the skipped one, that
    at least two records have. *)
Lemma duplicatesOf_In (accounts : list AccountDetails) (d : string) :
  In d (duplicatesOf accounts)
  <-> d <> "-" /\ 2 <= occurrences d accounts.
Proof.
  unfold duplicatesOf. rewrite in_map_iff.
  assert (Hnd : NoDup (map fst (countKeys accounts [])))
    by (apply countKeys_NoDup; constructor).
  split.
  - intros [[k n] [<- Hin]]. apply filter_In in Hin as [Hin Hn].
    cbn [fst snd] in *. apply Nat.ltb_lt in Hn.
    apply (entries_get _ _ _ Hnd) in Hin.
    destruct (String.eqb_spec k "-") as [->|Hk].
    + rewrite countKeys_get_hyphen in Hin. discriminate.
    + split; [exact Hk|]. rewrite (countKeys_get _ _ Hk) in Hin.
      destruct (occurrences k accounts); [discriminate|].
      cbn [StrMap.get orElse Nat.add] in Hin. injection Hin as <-. exact Hn.
  - intros [Hk Hocc]. exists (d, occurrences d accounts). split; [reflexivity|].
    apply filter_In. split.
    + apply (entries_get _ _ _ Hnd). rewrite (countKeys_get _ _ Hk).
      destruct (occurrences d accounts); [lia | reflexivity].
    + apply Nat.ltb_lt. cbn [snd]. lia.
Qed.

Lemma occurrences_one (k : string) (accounts : list AccountDetails) :
  forall i a,
    nth_error accounts i = Some a -> keyOf a = k ->
    1 <= occurrences k accounts.
Proof.
  induction accounts as [|x rest IH]; intros [|i] a H Hk; simpl in H;
    try discriminate; rewrite occurrences_cons.
  - injection H as ->. rewrite Hk, String.eqb_refl. lia.
  - pose proof (IH i a H Hk). lia.
Qed.

Lemma occurrences_two (k : string) (accounts : list AccountDetails) :
  forall i j a b,
    i < j ->
    nth_error accounts i = Some a -> nth_error accounts j = Some b ->
    keyOf a = k -> keyOf b = k ->
    2 <= occurrences k accounts.
Proof.
  induction accounts as [|x rest IH]; intros i j a b Hij Hi Hj Ha Hb.
  - destruct i; discriminate.
  - rewrite occurrences_cons. destruct j as [|j]; [lia|]. simpl in Hj.
    destruct i as [|i]; simpl in Hi.
    + injection Hi as ->. rewrite Ha, String.eqb_refl.
      pose proof (occurrences_one k rest j b Hj Hb). lia.
    + assert (2 <= occurrences k rest);
        [apply (IH i j a b); auto; lia | lia].
Qed.

Lemma shared_pair_duplicate (accounts : list AccountDetails)
    (i j : nat) (a b : AccountDetails) :
  i <> j ->
  nth_error accounts i = Some a -> nth_error accounts j = Some b ->
  pairOf a = pairOf b -> pairOf a <> ("", "") ->
  In (keyOf a) (duplicatesOf accounts).
Proof.
  intros Hij Hi Hj Hpair Hne. apply duplicatesOf_In. split.
  - intros E. now apply keyOf_hyphen in E.
  - pose proof (pairOf_keyOf a b Hpair) as Hk.
    destruct (Nat.lt_ge_cases i j) as [Hlt|Hge].
    + now apply (occurrences_two _ accounts i j a b).
    + apply (occurrences_two _ accounts j i b a); auto. lia.
Qed.

(** The message of a key whose parts hold no hyphen names the two
    parts. *)
Lemma duplicateMessage_pair (x y : string) :
  hasChar hyphen x = false -> hasChar hyphen y = false ->
  duplicateMessage (x ++ "-" ++ y) = "Account " ++ x ++ " at " ++ y.
Proof.
  intros Hx Hy. unfold duplicateMessage.
  assert (E : splitOn hyphen (x ++ "-" ++ y) = [x; y]).
  { induction x as [|c x IH].
    - simpl. now rewrite (splitOn_no_sep hyphen y Hy).
    - cbn [hasChar] in Hx. apply orb_false_iff in Hx as [Hc Hx].
      change (String c x ++ "-" ++ y) with (String c (x ++ "-" ++ y)).
      cbn [splitOn]. now rewrite (IH Hx), Hc. }
  now rewrite E.
Qed.

(** What an accepted text went through. *)
Lemma parseCsv_accepted (text : string) (accounts : list AccountDetails) :
  parseCsv text = Accepted accounts ->
  exists h r rows,
    linesOf text = h :: r :: rows
    /\ missingHeaders (robustParseCsvRow h) = []
    /\ parsingErrors (parseRows (robustParseCsvRow h) (r :: rows)) = []
    /\ duplicatesOf
         (accountsToVerify (parseRows (robustParseCsvRow h) (r :: rows))) = []
    /\ accounts = accountsToVerify (parseRows (robustParseCsvRow h) (r :: rows)).
Proof.
  unfold parseCsv. destruct (isEmpty text); [discriminate|].
  destruct (linesOf text) as [|h [|r rows]]; try discriminate.
  intros H. exists h, r, rows. split; [reflexivity|].
  destruct (missingHeaders (robustParseCsvRow h)) eqn:M.
  - rewrite (parseLines_rows h r rows M) in H. cbv zeta in H.
    destruct (0 <? length (parsingErrors _))%nat eqn:E1; [discriminate|].
    destruct (0 <? length (duplicatesOf _))%nat eqn:E2; [discriminate|].
    apply length_pos_empty in E1, E2. injection H as <-. auto.
  - rewrite parseLines_header_error in H; [discriminate | now rewrite M].
Qed.

(** C1, as stated, fails: the duplicate check skips the key of the
    empty pair, so two accepted records without account number and
    bank name share their pair in an accepted batch. *)
Lemma C1_counterexample :
  let text := "beneficiaryName,bankName,accountNumber,bvn" ++ nl
              ++ "Ada,,,11111111111" ++ nl ++ "Bob,,,22222222222" in
  let a := {| beneficiaryName := "Ada"; bankName := "";
              accountNumber := ""; bvn := "11111111111" |} in
  let b := {| beneficiaryName := "Bob"; bankName := "";
              accountNumber := ""; bvn := "22222222222" |} in
  parseCsv text = Accepted [a; b]
  /\ nth_error [a; b] 0 = Some a
  /\ nth_error [a; b] 1 = Some b
  /\ pairOf a = pairOf b.
Proof. repeat split. Qed.

(** C1, amended. In every accepted batch no two accepted records
    share the same (account number, bank name) pair, trimmed and
    lower-cased, unless both parts of the pair are empty.  Whenever a
    batch passes the header and structure checks and two of its
    accepted records share a pair that is not the empty one, the whole
    batch is rejected with the duplicate error, which lists every key
    that at least two records have (for a pair without hyphens, by its
    account number and bank name), and no record is verified. *)
Theorem C1_duplicate_pairs (text : string) :
  (forall accounts,
      parseCsv text = Accepted accounts ->
      forall i j a b,
        i <> j ->
        nth_error accounts i = Some a -> nth_error accounts j = Some b ->
        pairOf a = pairOf b -> pairOf a = ("", ""))
  /\ (let lines := linesOf text in
      let header := robustParseCsvRow (hd "" lines) in
      let st := parseRows header (tl lines) in
      let accepted := accountsToVerify st in
      let duplicates := duplicatesOf accepted in
      let msg :=
        "Duplicate entries found in the file. Please remove them and try again. Duplicates: "
        ++ join "; " (map duplicateMessage duplicates) ++ "." in
      missingHeaders header = [] ->
      parsingErrors st = [] ->
      forall i j a b,
        i <> j ->
        nth_error accepted i = Some a -> nth_error accepted j = Some b ->
        pairOf a = pairOf b -> pairOf a <> ("", "") ->
        parseCsv text = Rejected msg
        /\ (forall d, In d duplicates
                      <-> d <> "-" /\ 2 <= occurrences d accepted)
        /\ In (keyOf a) duplicates
        /\ (hasChar hyphen (fst (pairOf a)) = false ->
            hasChar hyphen (snd (pairOf a)) = false ->
            duplicateMessage (keyOf a)
            = "Account " ++ fst (pairOf a) ++ " at " ++ snd (pairOf a))
        /\ forall World verify ui (w : World),
             handleBulkUpload World verify text ui w
             = (reportFailure ui msg, w)).
Proof.
  split.
  - intros accounts Hacc i j a b Hij Hi Hj Hpair.
    apply parseCsv_accepted in Hacc
      as (h & r & rows & _ & _ & _ & Hdup & ->).
    destruct (pairOf a) as [x y] eqn:Ea.
    destruct (string_dec x "") as [->|Hx];
      [destruct (string_dec y "") as [->|Hy]; [reflexivity|]|].
    all: exfalso;
      assert (Hin : In (keyOf a) (duplicatesOf
        (accountsToVerify (parseRows (robustParseCsvRow h) (r :: rows)))))
        by (apply (shared_pair_duplicate _ i j a b); auto;
            rewrite Ea; congruence);
      now rewrite Hdup in Hin.
  - cbv zeta. intros Hhdr Herr i j a b Hij Hi Hj Hpair Hne.
    pose proof (shared_pair_duplicate _ i j a b Hij Hi Hj Hpair Hne) as Hin.
    assert (Hparse : parseCsv text = Rejected (duplicateErrorMessage
      (duplicatesOf (accountsToVerify
         (parseRows (robustParseCsvRow (hd "" (linesOf text)))
            (tl (linesOf text))))))).
    { destruct (linesOf text) as [|h [|r rows]] eqn:E;
        try (destruct i; discriminate).
      rewrite parseCsv_lines by (rewrite E; simpl; lia).
      rewrite E. cbn [hd tl] in *.
      rewrite (parseLines_rows h r rows Hhdr). cbv zeta.
      rewrite (proj2 (length_pos_empty _) Herr).
      rewrite (proj2 (length_pos_nonempty _)); [reflexivity|].
      intros Hnil. now rewrite Hnil in Hin. }
    split; [exact Hparse|]. split; [intros d; apply duplicatesOf_In|].
    split; [exact Hin|]. split.
    + intros Hx Hy. rewrite keyOf_pair. now apply duplicateMessage_pair.
    + intros World verify ui w. unfold handleBulkUpload. now rewrite Hparse.
Qed.

Lemma C1_duplicate_pairs_witness :
  parseCsv ("beneficiaryName,bankName,accountNumber,bvn" ++ nl
            ++ "Ada,Zenith,0123456789,11111111111" ++ nl
            ++ "Bob, ZENITH ,0123456789,22222222222")
  = Rejected "Duplicate entries found in the file. Please remove them and try again. Duplicates: Account 0123456789 at zenith.".
Proof.
  refine (proj1 (proj2 (C1_duplicate_pairs
            ("beneficiaryName,bankName,accountNumber,bvn" ++ nl
             ++ "Ada,Zenith,0123456789,11111111111" ++ nl
             ++ "Bob, ZENITH ,0123456789,22222222222")) _ _ 0 1
            {| beneficiaryName := "Ada"; bankName := "Zenith";
               accountNumber := "0123456789"; bvn := "11111111111" |}
            {| beneficiaryName := "Bob"; bankName := "ZENITH";
               accountNumber := "0123456789"; bvn := "22222222222" |}
            _ _ _ _ _)); try reflexivity; discriminate.
Defined.

(** * More on the row tokenizer *)

Lemma splitOn_length (sep : ascii) (s : string) :
  length (splitOn sep s) = S (countChar sep s).
Proof.
  induction s as [|c r IH]; [reflexivity|].
  cbn [splitOn countChar]. destruct (splitOn_nonempty sep r) as [p [ps E]].
  rewrite E in *. destruct (Ascii.eqb c sep); simpl in *; lia.
Qed.

Lemma parseRowFrom_length (row : string) :
  forall values cur inQuotes,
    length values < length (parseRowFrom row values cur inQuotes).
Proof.
  assert (H : forall n row, String.length row <= n ->
    forall values cur inQuotes,
      length values < length (parseRowFrom row values cur inQuotes)).
  { induction n as [|n IH]; intros [|c r] Hlen values cur inQuotes;
      simpl in Hlen; try lia;
      try (cbn [parseRowFrom]; rewrite length_app; simpl; lia).
    cbn [parseRowFrom]. destruct (Ascii.eqb c dquote).
    - destruct r as [|c' r'].
      + cbn [parseRowFrom]. rewrite length_app. simpl. lia.
      + destruct (inQuotes && Ascii.eqb c' dquote).
        * apply IH. simpl in *. lia.
        * apply IH. simpl in *. lia.
    - destruct (Ascii.eqb c comma && negb inQuotes).
      + eapply Nat.lt_trans; [|apply IH; lia]. rewrite length_app. simpl. lia.
      + apply IH. lia. }
  exact (H (String.length row) row (le_n _)).
Qed.

(** X1. Whatever the line, the tokenizer returns at least one cell,
    and every cell it returns is free of leading and trailing white
    space. *)
Theorem X1_cells_trimmed (row : string) :
  robustParseCsvRow row <> []
  /\ Forall (fun c => trim c = c) (robustParseCsvRow row).
Proof.
  split.
  - pose proof (parseRowFrom_length row [] "" false) as H.
    unfold robustParseCsvRow. intros E. rewrite E in H. simpl in H. lia.
  - exact (robustParseCsvRow_trimmed row).
Qed.

(** X2. On a line without double-quotes the tokenizer is the plain
    split at the commas followed by trimming: there is one cell more
    than there are commas. *)
Theorem X2_unquoted_is_split (row : string) :
  hasChar dquote row = false ->
  robustParseCsvRow row = map trim (splitOn comma row)
  /\ length (robustParseCsvRow row) = S (countChar comma row).
Proof.
  intros H. rewrite (robustParseCsvRow_unquoted row H). split; [reflexivity|].
  now rewrite length_map, splitOn_length.
Qed.

Lemma X2_unquoted_is_split_witness :
  robustParseCsvRow " Ada ,, Zenith Bank,0123456789 "
  = map trim (splitOn comma " Ada ,, Zenith Bank,0123456789 ")
  /\ length (robustParseCsvRow " Ada ,, Zenith Bank,0123456789 ") = 4.
Proof.
  apply (X2_unquoted_is_split " Ada ,, Zenith Bank,0123456789 ").
  reflexivity.
Defined.

(** Inside a quoted span nothing but a double-quote is special. *)
Lemma parseRowFrom_inside (rest : string) :
  hasChar dquote rest = false ->
  forall values cur,
    parseRowFrom rest values cur true = (values ++ [trim (cur ++ rest)])%list.
Proof.
  induction rest as [|c r IH]; intros H values cur.
  - simpl. now rewrite append_nil_r.
  - cbn [hasChar] in H. apply orb_false_iff in H as [Hc Hr].
    cbn [parseRowFrom]. rewrite Hc, andb_false_r.
    now rewrite (IH Hr), append_str.
Qed.

Lemma parseRowFrom_open (rest : string) (values : list string)
    (cur : string) :
  parseRowFrom (String dquote rest) values cur false
  = parseRowFrom rest values cur true.
Proof. destruct rest; reflexivity. Qed.

Lemma parseRowFrom_plain (s : string) :
  plainField s = true ->
  forall rest values cur,
    parseRowFrom (s ++ rest) values cur false
    = parseRowFrom rest values (cur ++ s) false.
Proof.
  unfold plainField. induction s as [|c r IH]; intros H rest values cur.
  - simpl. now rewrite append_nil_r.
  - cbn [hasChar] in H. rewrite !negb_orb in H.
    apply andb_true_iff in H as [Hc Hq].
    apply andb_true_iff in Hc as [Hc Hrc].
    apply andb_true_iff in Hq as [Hq Hrq].
    apply negb_true_iff in Hc, Hq.
    change (String c r ++ rest) with (String c (r ++ rest)).
    cbn [parseRowFrom]. rewrite Hq, Hc. cbn [andb].
    rewrite IH by (now rewrite Hrc, Hrq). now rewrite append_str.
Qed.

Lemma parseRowFrom_comma (rest : string) (values : list string)
    (cur : string) :
  parseRowFrom (String comma rest) values cur false
  = parseRowFrom rest (values ++ [trim cur])%list "" false.
Proof. reflexivity. Qed.

(** Reading a stretch without double-quotes outside a quoted span:
    the cells it completes are emitted and its last piece stays the
    cell being read. *)
Lemma parseRowFrom_unquoted_prefix (before : string) :
  hasChar dquote before = false ->
  forall tail values cur,
    parseRowFrom (before ++ tail) values cur false
    = parseRowFrom tail
        (values
         ++ map trim (removelast (prepend cur (splitOn comma before))))%list
        (last (prepend cur (splitOn comma before)) "")
        false.
Proof.
  induction before as [|c r IH]; intros H tail values cur.
  - cbn [append splitOn prepend removelast last map].
    now rewrite append_nil_r, app_nil_r.
  - cbn [hasChar] in H. apply orb_false_iff in H as [Hc Hr].
    change (String c r ++ tail) with (String c (r ++ tail)).
    cbn [parseRowFrom splitOn]. rewrite Hc.
    destruct (splitOn_nonempty comma r) as [p [ps E]].
    specialize (IH Hr tail). rewrite E in *.
    destruct (Ascii.eqb c comma) eqn:Ec; cbn [andb negb].
    + rewrite IH. cbn [prepend append].
      change (removelast ((cur ++ "") :: p :: ps))
        with ((cur ++ "") :: removelast (p :: ps)).
      change (last ((cur ++ "") :: p :: ps) "") with (last (p :: ps) "").
      cbn [map]. now rewrite append_nil_r, <- app_assoc.
    + rewrite IH. cbn [prepend]. now rewrite append_str.
Qed.

(** X3. A quote that is opened and never closed raises no error, in
    whichever cell it is opened: the cells completed before it are
    read as usual, and the rest of the line, commas included, becomes
    part of the cell that was being read. *)
Theorem X3_unterminated_quote (before rest : string) :
  hasChar dquote before = false ->
  hasChar dquote rest = false ->
  robustParseCsvRow (before ++ str dquote ++ rest)
  = (map trim (removelast (splitOn comma before))
     ++ [trim (last (splitOn comma before) "" ++ rest)])%list.
Proof.
  intros Hb Hr. unfold robustParseCsvRow.
  rewrite (parseRowFrom_unquoted_prefix before Hb).
  destruct (splitOn_nonempty comma before) as [p [ps E]]. rewrite E.
  change (prepend "" (p :: ps)) with (p :: ps).
  change (str dquote ++ rest) with (String dquote rest).
  now rewrite parseRowFrom_open, (parseRowFrom_inside rest Hr).
Qed.

Lemma X3_unterminated_quote_witness :
  robustParseCsvRow ("x, y ,Ada " ++ str dquote ++ "Zenith, Lagos,0123456789")
  = ["x"; "y"; "Ada Zenith, Lagos,0123456789"].
Proof.
  apply (X3_unterminated_quote "x, y ,Ada " "Zenith, Lagos,0123456789");
    reflexivity.
Defined.

(** * Reading back what the serializers write *)

Lemma parseRowFrom_quoted_body (m : string) :
  forall values cur,
    parseRowFrom (doubleQuotes m ++ str dquote) values cur true
    = (values ++ [trim (cur ++ m)])%list.
Proof.
  induction m as [|c r IH]; intros values cur.
  - simpl. now rewrite append_nil_r.
  - cbn [doubleQuotes]. destruct (Ascii.eqb_spec c dquote) as [->|Hc].
    + change (String dquote (String dquote (doubleQuotes r)) ++ str dquote)
        with (String dquote (String dquote (doubleQuotes r ++ str dquote))).
      cbn [parseRowFrom]. rewrite Ascii.eqb_refl. cbn [andb].
      now rewrite IH, append_str.
    + change (String c (doubleQuotes r) ++ str dquote)
        with (String c (doubleQuotes r ++ str dquote)).
      cbn [parseRowFrom]. apply Ascii.eqb_neq in Hc. rewrite Hc, andb_false_r.
      now rewrite IH, append_str.
Qed.

Lemma parseRowFrom_formatted (m : string) (values : list string) :
  parseRowFrom (formatCsvField m) values "" false
  = (values ++ [trim m])%list.
Proof.
  rewrite formatCsvField_rule.
  destruct (hasChar comma m || hasChar dquote m || hasChar lf m) eqn:E.
  - change (str dquote ++ doubleQuotes m ++ str dquote)
      with (String dquote (doubleQuotes m ++ str dquote)).
    now rewrite parseRowFrom_open, parseRowFrom_quoted_body.
  - apply orb_false_iff in E as [E _]. apply orb_false_iff in E as [Hc Hq].
    rewrite (parseRowFrom_unquoted m Hq), (splitOn_no_sep comma m Hc).
    reflexivity.
Qed.

(** X4. Escaping and tokenizing are inverse up to trimming: whatever
    the message, the field [formatCsvField] writes for it is read back
    by the tokenizer as exactly one cell, the trimmed message. *)
Theorem X4_format_then_tokenize (m : string) :
  robustParseCsvRow (formatCsvField m) = [trim m].
Proof. exact (parseRowFrom_formatted m []). Qed.

Lemma parseRowFrom_plain_cell (s : string) :
  plainField s = true ->
  forall rest values,
    parseRowFrom (s ++ String comma rest) values "" false
    = parseRowFrom rest (values ++ [trim s])%list "" false.
Proof.
  intros H rest values.
  now rewrite (parseRowFrom_plain s H), parseRowFrom_comma.
Qed.

Lemma join_comma_cons (a b : string) (l : list string) :
  join "," (a :: b :: l) = a ++ String comma (join "," (b :: l)).
Proof. reflexivity. Qed.

(** X5. A row of the all-results file whose four record fields hold
    no comma and no double-quote is read back by the tokenizer as six
    cells: the four fields trimmed, the status word and the trimmed
    message, whatever characters the message holds. *)
Theorem X5_all_results_row_reads_back (r : VerificationResultData) :
  Forall (fun f => plainField f = true) (recordFields r) ->
  robustParseCsvRow (allResultsRow r)
  = (map trim (recordFields r)
     ++ [if success r then "Success" else "Failed"; trim (message r)])%list.
Proof.
  intros H. unfold recordFields in *.
  inversion H as [|? ? H1 Ha]; subst. inversion Ha as [|? ? H2 Hb]; subst.
  inversion Hb as [|? ? H3 Hc]; subst. inversion Hc as [|? ? H4 _]; subst.
  unfold robustParseCsvRow, allResultsRow, allResultsCells.
  rewrite !join_comma_cons, !parseRowFrom_plain_cell by assumption.
  rewrite parseRowFrom_plain_cell by now destruct (success r).
  change (join "," [formatCsvField (message r)])
    with (formatCsvField (message r)).
  rewrite parseRowFrom_formatted. cbn [app map].
  now destruct (success r).
Qed.

Lemma X5_all_results_row_reads_back_witness :
  robustParseCsvRow
    (allResultsRow
       {| success := false;
          message := "Invalid account number, see " ++ q ++ "NUBAN" ++ q ++ ".";
          data := Some (sampleAccount "Ada Obi" "0123456781") |})
  = ["Ada Obi"; "Zenith"; "0123456781"; "22345678901"; "Failed";
     "Invalid account number, see " ++ q ++ "NUBAN" ++ q ++ "."].
Proof.
  apply (X5_all_results_row_reads_back
           {| success := false;
              message := "Invalid account number, see " ++ q ++ "NUBAN" ++ q ++ ".";
              data := Some (sampleAccount "Ada Obi" "0123456781") |}).
  repeat constructor.
Defined.

(** * When a text is accepted *)

Lemma mismatched_false (header : list string) (line : string) :
  mismatched header line = false
  <-> length (robustParseCsvRow line) = length header.
Proof. unfold mismatched. now rewrite negb_false_iff, Nat.eqb_eq. Qed.

Lemma no_errors_iff (header rows : list string) :
  parsingErrors (parseRows header rows) = []
  <-> Forall (fun line => length (robustParseCsvRow line) = length header) rows.
Proof.
  rewrite parseRows_errors, errorsFrom_nil, !Forall_forall.
  split; intros H line Hin; apply mismatched_false; auto.
Qed.

Lemma no_duplicates_iff (accounts : list AccountDetails) :
  duplicatesOf accounts = []
  <-> forall d, d <> "-" -> occurrences d accounts <= 1.
Proof.
  split.
  - intros E d Hd.
    destruct (Nat.le_gt_cases (occurrences d accounts) 1) as [|Hgt]; [assumption|].
    assert (Hin : In d (duplicatesOf accounts))
      by (apply duplicatesOf_In; split; [exact Hd | lia]).
    now rewrite E in Hin.
  - intros H. destruct (duplicatesOf accounts) as [|d l] eqn:E; [reflexivity|].
    assert (Hin : In d (duplicatesOf accounts)) by (rewrite E; now left).
    apply duplicatesOf_In in Hin as [Hd Hocc].
    pose proof (H d Hd). lia.
Qed.

Lemma parseCsv_accepted_iff (text : string) (accounts : list AccountDetails) :
  let lines := linesOf text in
  let header := robustParseCsvRow (hd "" lines) in
  let rows := tl lines in
  let records := flat_map (rowRecords header (headerMapOf header)) rows in
  parseCsv text = Accepted accounts
  <-> (2 <= length lines
       /\ missingHeaders header = []
       /\ Forall (fun line => length (robustParseCsvRow line) = length header)
            rows
       /\ (forall d, d <> "-" -> occurrences d records <= 1)
       /\ accounts = records).
Proof.
  cbv zeta. split.
  - intros H. apply parseCsv_accepted in H
      as (h & r & rows & E & Hhdr & Herr & Hdup & ->).
    rewrite E. cbn [hd tl length]. rewrite <- parseRows_accounts.
    split; [lia|]. split; [exact Hhdr|]. split; [now apply no_errors_iff|].
    split; [now apply no_duplicates_iff | reflexivity].
  - intros (Hlen & Hhdr & Herr & Hdup & ->).
    rewrite parseCsv_lines by exact Hlen.
    destruct (two_lines _ Hlen) as (h & r & rows & E).
    rewrite E in *. cbn [hd tl] in *.
    rewrite (parseLines_rows h r rows Hhdr). cbv zeta.
    apply no_errors_iff in Herr. rewrite <- parseRows_accounts in *.
    apply no_duplicates_iff in Hdup.
    now rewrite (proj2 (length_pos_empty _) Herr),
      (proj2 (length_pos_empty _) Hdup).
Qed.

(** X6. Exactly when a text is accepted: it has a header line and at
    least one more non-blank line, the header holds the four required
    names, every data row has as many cells as the header, and no
    duplicate-check key other than the hyphen alone belongs to two
    records.  The accepted records are then the records of the rows,
    in row order. *)
Theorem X6_accepted_iff (text : string) (accounts : list AccountDetails) :
  let lines := linesOf text in
  let header := robustParseCsvRow (hd "" lines) in
  let rows := tl lines in
  let records := flat_map (rowRecords header (headerMapOf header)) rows in
  parseCsv text = Accepted accounts
  <-> (2 <= length lines
       /\ missingHeaders header = []
       /\ Forall (fun line => length (robustParseCsvRow line) = length header)
            rows
       /\ (forall d, d <> "-" -> occurrences d records <= 1)
       /\ accounts = records).
Proof. exact (parseCsv_accepted_iff text accounts). Qed.

Lemma X6_accepted_iff_witness :
  parseCsv ("bvn, accountNumber ,bankName,beneficiaryName,note" ++ nl
            ++ nl ++ "22345678901,0123456789,Zenith,Ada,first" ++ nl
            ++ ",,,," ++ nl
            ++ "22345678902,0123456789,Access,Bob,second")
  = Accepted
      [{| beneficiaryName := "Ada"; bankName := "Zenith";
          accountNumber := "0123456789"; bvn := "22345678901" |};
       {| beneficiaryName := "Bob"; bankName := "Access";
          accountNumber := "0123456789"; bvn := "22345678902" |}].
Proof.
  apply (proj2 (X6_accepted_iff
           ("bvn, accountNumber ,bankName,beneficiaryName,note" ++ nl
            ++ nl ++ "22345678901,0123456789,Zenith,Ada,first" ++ nl
            ++ ",,,," ++ nl
            ++ "22345678902,0123456789,Access,Bob,second") _)).
  split; [vm_compute; lia|]. split; [reflexivity|].
  split; [vm_compute; repeat constructor|]. split; [|reflexivity].
  apply no_duplicates_iff. reflexivity.
Defined.

Lemma rowRecords_kept (header : list string) (hm : StrMap.t nat)
    (rows : list string) (account : AccountDetails) :
  In account (flat_map (rowRecords header hm) rows) ->
  notCompletelyEmpty account = true
  /\ Forall (fun v => trim v = v) (valuesOf account).
Proof.
  intros H. apply in_flat_map in H as [line [_ Hin]].
  unfold rowRecords in Hin.
  destruct (length (robustParseCsvRow line) =? length header)%nat;
    [|contradiction].
  destruct (notCompletelyEmpty _) eqn:E; [|contradiction].
  destruct Hin as [<-|[]]. split; [exact E|].
  assert (Hcell : forall name,
    trim (cell (robustParseCsvRow line) hm name)
    = cell (robustParseCsvRow line) hm name).
  { intros name. destruct (cell_cases (robustParseCsvRow line) hm name)
      as [->|Hin]; [reflexivity|].
    exact (proj1 (Forall_forall _ _) (robustParseCsvRow_trimmed line) _ Hin). }
  repeat constructor; apply Hcell.
Qed.

Lemma flat_map_rowRecords_length (header : list string) (hm : StrMap.t nat)
    (rows : list string) :
  length (flat_map (rowRecords header hm) rows) <= length rows.
Proof.
  induction rows as [|line rest IH]; [reflexivity|].
  cbn [flat_map]. rewrite length_app. unfold rowRecords at 1.
  destruct (_ =? _)%nat; [destruct (notCompletelyEmpty _)|]; simpl; lia.
Qed.

(** X7. What every accepted record looks like: its four fields carry
    no leading or trailing white space and at least one of them is not
    empty; and there are at most as many accepted records as data
    lines. *)
Theorem X7_accepted_records_shape (text : string)
    (accounts : list AccountDetails) :
  parseCsv text = Accepted accounts ->
  Forall (fun a => Forall (fun v => trim v = v) (valuesOf a)
                   /\ Exists (fun v => v <> "") (valuesOf a)) accounts
  /\ length accounts <= length (linesOf text) - 1.
Proof.
  intros H. apply parseCsv_accepted in H
    as (h & r & rows & E & _ & _ & _ & ->).
  rewrite E, parseRows_accounts. split.
  - apply Forall_forall. intros a Hin.
    apply rowRecords_kept in Hin as [Hkept Htrim]. split; [exact Htrim|].
    apply notCompletelyEmpty_true in Hkept.
    apply Exists_exists in Hkept as [v [Hv Hne]].
    apply Exists_exists. exists v. split; [exact Hv|].
    now rewrite <- (proj1 (Forall_forall _ _) Htrim v Hv).
  - pose proof (flat_map_rowRecords_length (robustParseCsvRow h)
                  (headerMapOf (robustParseCsvRow h)) (r :: rows)).
    simpl in *. lia.
Qed.

Lemma X7_accepted_records_shape_witness :
  let a := {| beneficiaryName := "Ada Obi"; bankName := "";
              accountNumber := "0123456789"; bvn := "" |} in
  Forall (fun a => Forall (fun v => trim v = v) (valuesOf a)
                   /\ Exists (fun v => v <> "") (valuesOf a)) [a]
  /\ 1 <= 3 - 1.
Proof.
  apply (X7_accepted_records_shape
           ("beneficiaryName,bankName,accountNumber,bvn" ++ nl
            ++ "  Ada Obi , ,0123456789 ," ++ nl ++ " ,,, ")).
  reflexivity.
Defined.

Lemma duplicatesOf_NoDup (accounts : list AccountDetails) :
  NoDup (duplicatesOf accounts).
Proof.
  unfold duplicatesOf.
  assert (H : NoDup (map fst (countKeys accounts [])))
    by (apply countKeys_NoDup; constructor).
  induction (countKeys accounts []) as [|[k n] m IH]; simpl; [constructor|].
  inversion H as [|? ? Hnotin Hm]; subst.
  destruct (1 <? n)%nat; simpl; [|now apply IH].
  constructor; [|now apply IH].
  intros Hin. apply Hnotin. apply in_map_iff in Hin as [[k' n'] [Ek Hf]].
  apply filter_In in Hf as [Hf _]. simpl in Ek. subst k'.
  now apply (in_map fst) in Hf.
Qed.

(** X8. Duplicates are detected on the joined key, not on the pair:
    whenever two accepted records of a batch that passes the header
    and structure checks have the same key, other than the hyphen
    alone, the batch is rejected, whether or not their account numbers
    and bank names agree part by part; the key is listed once. *)
Theorem X8_same_key_rejected (text : string) (i j : nat)
    (a b : AccountDetails) :
  let lines := linesOf text in
  let header := robustParseCsvRow (hd "" lines) in
  let st := parseRows header (tl lines) in
  let duplicates := duplicatesOf (accountsToVerify st) in
  missingHeaders header = [] ->
  parsingErrors st = [] ->
  i <> j ->
  nth_error (accountsToVerify st) i = Some a ->
  nth_error (accountsToVerify st) j = Some b ->
  keyOf a = keyOf b ->
  keyOf a <> "-" ->
  parseCsv text = Rejected (duplicateErrorMessage duplicates)
  /\ NoDup duplicates
  /\ In (keyOf a) duplicates.
Proof.
  cbv zeta. intros Hhdr Herr Hij Hi Hj Hkey Hne.
  assert (Hin : In (keyOf a) (duplicatesOf (accountsToVerify
    (parseRows (robustParseCsvRow (hd "" (linesOf text)))
       (tl (linesOf text)))))).
  { apply duplicatesOf_In. split; [exact Hne|].
    destruct (Nat.lt_ge_cases i j) as [Hlt|Hge].
    - now apply (occurrences_two _ _ i j a b).
    - apply (occurrences_two _ _ j i b a); auto. lia. }
  split; [|split; [apply duplicatesOf_NoDup | exact Hin]].
  destruct (linesOf text) as [|h [|r rows]] eqn:E;
    try (destruct i; discriminate).
  rewrite parseCsv_lines by (rewrite E; simpl; lia).
  rewrite E. cbn [hd tl] in *.
  rewrite (parseLines_rows h r rows Hhdr). cbv zeta.
  rewrite (proj2 (length_pos_empty _) Herr).
  rewrite (proj2 (length_pos_nonempty _)); [reflexivity|].
  intros Hnil. now rewrite Hnil in Hin.
Qed.

Lemma X8_same_key_rejected_witness :
  let a := {| beneficiaryName := "Ada"; bankName := "x";
              accountNumber := "12-34"; bvn := "1" |} in
  let b := {| beneficiaryName := "Bob"; bankName := "34-x";
              accountNumber := "12"; bvn := "2" |} in
  pairOf a <> pairOf b
  /\ parseCsv ("beneficiaryName,bankName,accountNumber,bvn" ++ nl
               ++ "Ada,x,12-34,1" ++ nl ++ "Bob,34-x,12,2")
     = Rejected "Duplicate entries found in the file. Please remove them and try again. Duplicates: Account 12 at 34.".
Proof.
  split; [discriminate|].
  refine (proj1 (X8_same_key_rejected
            ("beneficiaryName,bankName,accountNumber,bvn" ++ nl
             ++ "Ada,x,12-34,1" ++ nl ++ "Bob,34-x,12,2") 0 1
            {| beneficiaryName := "Ada"; bankName := "x";
               accountNumber := "12-34"; bvn := "1" |}
            {| beneficiaryName := "Bob"; bankName := "34-x";
               accountNumber := "12"; bvn := "2" |}
            _ _ _ _ _ _ _)); try reflexivity; discriminate.
Defined.

(** * Lines *)

Lemma allWhite_trim (s : string) : allWhite s = true -> trim s = "".
Proof.
  unfold trim. induction s as [|c r IH]; [reflexivity|].
  cbn [allWhite trimStart]. intros H. apply andb_true_iff in H as [Hc Hr].
  rewrite Hc. now apply IH.
Qed.

Lemma allWhite_pushChar (c : ascii) (l : list string) :
  isWhiteSpace c = true ->
  Forall (fun x => allWhite x = true) l ->
  Forall (fun x => allWhite x = true) (pushChar c l).
Proof.
  intros Hc Hl. destruct l as [|x l]; simpl.
  - repeat constructor. simpl. now rewrite Hc.
  - inversion Hl; subst. constructor; [|assumption].
    simpl. now rewrite Hc.
Qed.

Lemma allWhite_splitLines (text : string) :
  allWhite text = true ->
  Forall (fun x => allWhite x = true) (splitLines text).
Proof.
  assert (H : forall n text, String.length text <= n ->
    allWhite text = true ->
    Forall (fun x => allWhite x = true) (splitLines text)).
  { induction n as [|n IH]; intros [|c r] Hlen Hw; simpl in Hlen;
      try lia; try (repeat constructor).
    cbn [allWhite] in Hw. apply andb_true_iff in Hw as [Hc Hr].
    cbn [splitLines]. destruct (Ascii.eqb c lf).
    - constructor; [reflexivity | apply IH; [lia | exact Hr]].
    - destruct r as [|c' r'].
      + apply allWhite_pushChar; [exact Hc | repeat constructor].
      + destruct (Ascii.eqb c cr && Ascii.eqb c' lf).
        * cbn [allWhite] in Hr. apply andb_true_iff in Hr as [_ Hr].
          constructor; [reflexivity | apply IH; [simpl in Hlen; lia | exact Hr]].
        * apply allWhite_pushChar; [exact Hc | apply IH; [lia | exact Hr]]. }
  exact (H (String.length text) text (le_n _)).
Qed.

Lemma filter_none {A} (f : A -> bool) (l : list A) :
  Forall (fun x => f x = false) l -> filter f l = [].
Proof.
  induction 1 as [|x l Hx _ IH]; simpl; [reflexivity | now rewrite Hx].
Qed.

Lemma filter_all {A} (f : A -> bool) (l : list A) :
  Forall (fun x => f x = true) l -> filter f l = l.
Proof.
  induction 1 as [|x l Hx _ IH]; simpl; [reflexivity | now rewrite Hx, IH].
Qed.

(** X9. A text of white space and line breaks only has no line left
    after the blank lines are removed, and is refused as an empty
    file. *)
Theorem X9_blank_text_is_empty (text : string) :
  text <> "" ->
  allWhite text = true ->
  linesOf text = []
  /\ parseCsv text
     = Rejected "CSV file is empty or contains only a header.".
Proof.
  intros Hne Hw.
  assert (E : linesOf text = []).
  { apply filter_none. eapply Forall_impl; [|exact (allWhite_splitLines text Hw)].
    intros l Hl. unfold nonBlank. now rewrite (allWhite_trim l Hl). }
  split; [exact E|]. unfold parseCsv.
  destruct text; [congruence|]. cbn [isEmpty]. now rewrite E.
Qed.

Lemma X9_blank_text_is_empty_witness :
  parseCsv (" " ++ crlf ++ nl ++ "  " ++ nl)
  = Rejected "CSV file is empty or contains only a header.".
Proof.
  refine (proj2 (X9_blank_text_is_empty (" " ++ crlf ++ nl ++ "  " ++ nl) _ _));
    [discriminate | reflexivity].
Defined.

Lemma okLine_inv (c : ascii) (r : string) :
  okLine (String c r) = true ->
  Ascii.eqb c lf = false
  /\ match r with
     | "" => Ascii.eqb c cr = false
     | String c' _ => Ascii.eqb c' lf = false /\ okLine r = true
     end.
Proof.
  unfold okLine. cbn [hasChar endsWith]. rewrite negb_orb. intros H.
  apply andb_true_iff in H as [H He]. apply andb_true_iff in H as [Hc Hr].
  apply negb_true_iff in Hc. split; [exact Hc|].
  destruct r as [|c' r']; [now apply negb_true_iff in He|].
  split; [|now rewrite Hr, He].
  cbn [hasChar] in Hr. rewrite negb_orb in Hr.
  apply andb_true_iff in Hr as [Hr _]. now apply negb_true_iff in Hr.
Qed.

Lemma splitLines_single (l : string) :
  okLine l = true -> splitLines l = [l].
Proof.
  induction l as [|c r IH]; [reflexivity|].
  intros H. apply okLine_inv in H as [Hc Hr].
  destruct r as [|c' r'].
  - cbn [splitLines]. now rewrite Hc.
  - destruct Hr as [Hc' Hr]. specialize (IH Hr).
    cbn [splitLines] in *. rewrite Hc, Hc', andb_false_r in *.
    rewrite IH. reflexivity.
Qed.

Lemma splitLines_line_lf (l rest : string) :
  okLine l = true ->
  splitLines (l ++ String lf rest) = l :: splitLines rest.
Proof.
  induction l as [|c r IH]; intros H.
  - reflexivity.
  - apply okLine_inv in H as [Hc Hr].
    destruct r as [|c' r'].
    + change (splitLines (String c (String lf rest))
              = String c "" :: splitLines rest).
      cbn [splitLines]. rewrite Hc, Hr. cbn [andb]. rewrite Ascii.eqb_refl.
      reflexivity.
    + destruct Hr as [Hc' Hr]. specialize (IH Hr).
      change (splitLines (String c (String c' (r' ++ String lf rest)))
              = String c (String c' r') :: splitLines rest).
      change (String c' r' ++ String lf rest)
        with (String c' (r' ++ String lf rest)) in IH.
      cbn [splitLines] in *. rewrite Hc, Hc', andb_false_r in *.
      rewrite IH. reflexivity.
Qed.

Lemma splitLines_line_crlf (l rest : string) :
  okLine l = true ->
  splitLines (l ++ String cr (String lf rest)) = l :: splitLines rest.
Proof.
  induction l as [|c r IH]; intros H.
  - reflexivity.
  - apply okLine_inv in H as [Hc Hr].
    destruct r as [|c' r'].
    + change (splitLines (String c (String cr (String lf rest)))
              = String c "" :: splitLines rest).
      cbn [splitLines]. rewrite Hc. cbn [andb].
      replace (Ascii.eqb cr lf) with false by reflexivity.
      rewrite andb_false_r, !Ascii.eqb_refl. reflexivity.
    + destruct Hr as [Hc' Hr]. specialize (IH Hr).
      change (splitLines
                (String c (String c' (r' ++ String cr (String lf rest))))
              = String c (String c' r') :: splitLines rest).
      change (String c' r' ++ String cr (String lf rest))
        with (String c' (r' ++ String cr (String lf rest))) in IH.
      cbn [splitLines] in *. rewrite Hc, Hc', andb_false_r in *.
      rewrite IH. reflexivity.
Qed.

Lemma splitLines_join_lf (ls : list string) :
  ls <> [] ->
  Forall (fun l => okLine l = true) ls ->
  splitLines (join nl ls) = ls.
Proof.
  intros Hne H. induction H as [|l ls Hl Hls IH]; [congruence|].
  destruct ls as [|l' ls]; [now apply splitLines_single|].
  change (join nl (l :: l' :: ls)) with (l ++ String lf (join nl (l' :: ls))).
  rewrite (splitLines_line_lf _ _ Hl), IH; [reflexivity | discriminate].
Qed.

Lemma splitLines_join_crlf (ls : list string) :
  ls <> [] ->
  Forall (fun l => okLine l = true) ls ->
  splitLines (join crlf ls) = ls.
Proof.
  intros Hne H. induction H as [|l ls Hl Hls IH]; [congruence|].
  destruct ls as [|l' ls]; [now apply splitLines_single|].
  change (join crlf (l :: l' :: ls))
    with (l ++ String cr (String lf (join crlf (l' :: ls)))).
  rewrite (splitLines_line_crlf _ _ Hl), IH; [reflexivity | discriminate].
Qed.

Lemma isEmpty_append (a : string) (c : ascii) (b : string) :
  isEmpty (a ++ String c b) = false.
Proof. now destruct a. Qed.

(** X10. Line separators: a text whose lines are joined by line feeds
    and the same lines joined by carriage return plus line feed split
    into the same lines (lines that hold no line feed and do not end
    in a carriage return), so both texts parse to the same outcome. *)
Theorem X10_line_endings (ls : list string) :
  ls <> [] ->
  Forall (fun l => okLine l = true) ls ->
  splitLines (join nl ls) = ls
  /\ splitLines (join crlf ls) = ls
  /\ parseCsv (join crlf ls) = parseCsv (join nl ls).
Proof.
  intros Hne H.
  pose proof (splitLines_join_lf ls Hne H) as Hlf.
  pose proof (splitLines_join_crlf ls Hne H) as Hcrlf.
  split; [exact Hlf|]. split; [exact Hcrlf|].
  unfold parseCsv, linesOf. rewrite Hlf, Hcrlf.
  destruct ls as [|l [|l' ls]]; [congruence | reflexivity |].
  change (join crlf (l :: l' :: ls))
    with (l ++ String cr (String lf (join crlf (l' :: ls)))).
  change (join nl (l :: l' :: ls)) with (l ++ String lf (join nl (l' :: ls))).
  now rewrite !isEmpty_append.
Qed.

Lemma X10_line_endings_witness :
  parseCsv ("beneficiaryName,bankName,accountNumber,bvn" ++ crlf
            ++ "Ada,Zenith,0123456789,22345678901" ++ crlf
            ++ "Bob,Access,0123456780,22345678902")
  = parseCsv ("beneficiaryName,bankName,accountNumber,bvn" ++ nl
              ++ "Ada,Zenith,0123456789,22345678901" ++ nl
              ++ "Bob,Access,0123456780,22345678902").
Proof.
  refine (proj2 (proj2 (X10_line_endings
            ["beneficiaryName,bankName,accountNumber,bvn";
             "Ada,Zenith,0123456789,22345678901";
             "Bob,Access,0123456780,22345678902"] _ _))).
  - discriminate.
  - repeat constructor.
Defined.

(** * The successful-only file *)

Lemma hasChar_app (c : ascii) (a b : string) :
  hasChar c (a ++ b) = hasChar c a || hasChar c b.
Proof.
  induction a as [|d a IH]; [reflexivity|].
  cbn [append hasChar]. now rewrite IH, orb_assoc.
Qed.

Lemma countChar_app (c : ascii) (a b : string) :
  countChar c (a ++ b) = countChar c a + countChar c b.
Proof.
  induction a as [|d a IH]; [reflexivity|].
  cbn [append countChar]. rewrite IH. lia.
Qed.

Lemma endsWith_app (c : ascii) (a : string) (d : ascii) (b : string) :
  endsWith c (a ++ String d b) = endsWith c (String d b).
Proof.
  induction a as [|x a IH]; [reflexivity|].
  change (String x a ++ String d b) with (String x (a ++ String d b)).
  destruct a as [|y a]; [reflexivity|]. exact IH.
Qed.

Lemma endsWith_cons_app (c x : ascii) (a : string) (d : ascii) (b : string) :
  endsWith c (String x (a ++ String d b)) = endsWith c (String d b).
Proof. exact (endsWith_app c (String x a) d b). Qed.

Lemma trimEnd_end (c : ascii) (s : string) :
  isWhiteSpace c = true -> endsWith c (trimEnd s) = false.
Proof.
  intros Hc. induction s as [|d r IH]; [reflexivity|].
  cbn [trimEnd]. destruct (isWhiteSpace d && isEmpty (trimEnd r)) eqn:E;
    [reflexivity|].
  destruct (trimEnd r) as [|y t] eqn:Er; [|exact IH].
  cbn [endsWith]. cbn [isEmpty] in E. rewrite andb_true_r in E.
  destruct (Ascii.eqb_spec d c); [congruence | reflexivity].
Qed.

Lemma trimmed_end (c : ascii) (s : string) :
  isWhiteSpace c = true -> trim s = s -> endsWith c s = false.
Proof. intros Hc <-. now apply trimEnd_end. Qed.

Lemma hasChar_trimStart (c : ascii) (s : string) :
  isWhiteSpace c = false -> hasChar c (trimStart s) = hasChar c s.
Proof.
  intros Hc. induction s as [|d r IH]; [reflexivity|].
  cbn [trimStart]. destruct (isWhiteSpace d) eqn:W; [|reflexivity].
  cbn [hasChar]. rewrite IH.
  destruct (Ascii.eqb_spec d c); [congruence | reflexivity].
Qed.

(** A line that holds a character other than white space is kept. *)
Lemma nonBlank_hasChar (c : ascii) (s : string) :
  isWhiteSpace c = false -> hasChar c s = true -> nonBlank s = true.
Proof.
  intros Hc Hs. unfold nonBlank, trim.
  destruct (trimEnd (trimStart s)) eqn:E; [|reflexivity].
  apply (trimEnd_empty_hasChar c _ Hc) in E.
  rewrite (hasChar_trimStart c s Hc) in E. congruence.
Qed.

Lemma export_rows (results : list VerificationResultData) :
  map successRow (filter isSuccessful results)
  = map (fun a => join "," (valuesOf a)) (successfulRecords results).
Proof.
  induction results as [|r rest IH]; [reflexivity|].
  unfold successfulRecords in *. cbn [filter flat_map].
  unfold isSuccessful at 1. destruct r as [[|] m [d|]]; cbn [success data andb];
    rewrite ?map_app; cbn [map app]; rewrite IH; reflexivity.
Qed.

Lemma exportable_inv (f1 f2 f3 f4 : string) :
  exportable {| beneficiaryName := f1; bankName := f2;
                accountNumber := f3; bvn := f4 |} = true ->
  Forall (fun f => plainField f = true /\ hasChar lf f = false /\ trim f = f)
    [f1; f2; f3; f4].
Proof.
  unfold exportable. cbn [valuesOf beneficiaryName bankName accountNumber bvn].
  intros H. apply andb_true_iff in H as [H _].
  apply forallb_forall with (x := f1) in H as H1; [|simpl; tauto].
  apply forallb_forall with (x := f2) in H as H2; [|simpl; tauto].
  apply forallb_forall with (x := f3) in H as H3; [|simpl; tauto].
  apply forallb_forall with (x := f4) in H as H4; [|simpl; tauto].
  repeat constructor;
    match goal with
    | Hx : (plainField ?f && _ && _) = true |- context [?f] =>
        apply andb_true_iff in Hx as [Hx Ht];
        apply andb_true_iff in Hx as [Hp Hl];
        apply negb_true_iff in Hl; apply String.eqb_eq in Ht
    end; assumption.
Qed.

(** The row of an exportable record reads back as its four fields. *)
Lemma tokenize_record_row (a : AccountDetails) :
  exportable a = true ->
  robustParseCsvRow (join "," (valuesOf a)) = valuesOf a.
Proof.
  destruct a as [f1 f2 f3 f4]. intros H. apply exportable_inv in H.
  inversion H as [|? ? [P1 [_ T1]] Ha]; subst.
  inversion Ha as [|? ? [P2 [_ T2]] Hb]; subst.
  inversion Hb as [|? ? [P3 [_ T3]] Hc]; subst.
  inversion Hc as [|? ? [P4 [_ T4]] _]; subst.
  unfold robustParseCsvRow, valuesOf.
  cbn [beneficiaryName bankName accountNumber bvn].
  rewrite !join_comma_cons, !parseRowFrom_plain_cell by assumption.
  change (join "," [f4]) with f4.
  unfold plainField in P4. apply andb_true_iff in P4 as [C4 Q4].
  apply negb_true_iff in C4, Q4.
  rewrite (parseRowFrom_unquoted f4 Q4), (splitOn_no_sep comma f4 C4).
  cbn [prepend map app append]. now rewrite T1, T2, T3, T4.
Qed.

Lemma record_row_okLine (a : AccountDetails) :
  exportable a = true ->
  okLine (join "," (valuesOf a)) = true
  /\ nonBlank (join "," (valuesOf a)) = true.
Proof.
  destruct a as [f1 f2 f3 f4]. intros H. apply exportable_inv in H.
  inversion H as [|? ? [_ [L1 _]] Ha]; subst.
  inversion Ha as [|? ? [_ [L2 _]] Hb]; subst.
  inversion Hb as [|? ? [_ [L3 _]] Hc]; subst.
  inversion Hc as [|? ? [_ [L4 T4]] _]; subst.
  unfold valuesOf. cbn [beneficiaryName bankName accountNumber bvn].
  rewrite !join_comma_cons. change (join "," [f4]) with f4. split.
  - unfold okLine. rewrite endsWith_app, !endsWith_cons_app.
    repeat (rewrite hasChar_app; cbn [hasChar]).
    rewrite L1, L2, L3, L4. cbn [orb negb andb].
    replace (Ascii.eqb comma lf) with false by reflexivity. cbn [orb negb andb].
    destruct f4 as [|c r]; [reflexivity|].
    change (endsWith cr (String comma (String c r)))
      with (endsWith cr (String c r)).
    now rewrite (trimmed_end cr (String c r)).
  - apply (nonBlank_hasChar comma); [reflexivity|].
    rewrite hasChar_app. cbn [hasChar]. rewrite Ascii.eqb_refl.
    now rewrite orb_true_r.
Qed.

Lemma rowRecords_record_row (a : AccountDetails) :
  exportable a = true ->
  rowRecords requiredHeaders (headerMapOf requiredHeaders)
    (join "," (valuesOf a)) = [a].
Proof.
  intros H. unfold rowRecords. rewrite (tokenize_record_row a H).
  unfold exportable in H. apply andb_true_iff in H as [_ Hk].
  destruct a as [f1 f2 f3 f4].
  change (accountOf (valuesOf _) (headerMapOf requiredHeaders))
    with {| beneficiaryName := f1; bankName := f2;
            accountNumber := f3; bvn := f4 |}.
  cbn [valuesOf length Nat.eqb requiredHeaders]. now rewrite Hk.
Qed.

(** X11. Export then import: when the successful outcomes carry
    records whose fields hold no comma, double-quote or line feed, are
    trimmed and not all empty, and no two of these records have the
    same duplicate-check key, the successful-only file is produced and
    parsing it gives back exactly these records, in order. *)
Theorem X11_export_then_import (results : list VerificationResultData) :
  let records := successfulRecords results in
  records <> [] ->
  Forall (fun a => exportable a = true) records ->
  duplicatesOf records = [] ->
  exists text,
    handleDownloadResults results = Some text
    /\ linesOf text
       = "beneficiaryName,bankName,accountNumber,bvn"
         :: map (fun a => join "," (valuesOf a)) records
    /\ parseCsv text = Accepted records.
Proof.
  intros records Hne Hexp Hdup.
  set (rows := map (fun a => join "," (valuesOf a)) records).
  set (headerLine := "beneficiaryName,bankName,accountNumber,bvn").
  exists (join nl (headerLine :: rows)).
  assert (Hrows : Forall (fun l => okLine l = true /\ nonBlank l = true) rows).
  { subst rows. apply Forall_map. eapply Forall_impl; [|exact Hexp].
    intros a Ha. now apply record_row_okLine. }
  assert (Hlines : linesOf (join nl (headerLine :: rows)) = headerLine :: rows).
  { unfold linesOf. rewrite splitLines_join_lf; [|discriminate|].
    - apply filter_all. constructor; [reflexivity|].
      eapply Forall_impl; [|exact Hrows]. now intros l [_ Hl].
    - constructor; [reflexivity|].
      eapply Forall_impl; [|exact Hrows]. now intros l [Hl _]. }
  assert (Hrecs : flat_map (rowRecords requiredHeaders
                              (headerMapOf requiredHeaders)) rows = records).
  { subst rows. clear Hrows Hlines Hne Hdup.
    induction Hexp as [|a l Ha _ IH]; [reflexivity|].
    cbn [map flat_map]. now rewrite (rowRecords_record_row a Ha), IH. }
  split; [|split; [exact Hlines|]].
  - unfold handleDownloadResults. rewrite export_rows. fold records rows.
    destruct (filter isSuccessful results) as [|r l] eqn:E; [|reflexivity].
    exfalso. pose proof (export_rows results) as Hx. rewrite E in Hx.
    fold records in Hx. destruct records; [congruence | discriminate].
  - apply (proj2 (parseCsv_accepted_iff _ _)). rewrite Hlines.
    cbn [hd tl length].
    change (robustParseCsvRow headerLine) with requiredHeaders.
    split; [destruct rows; [destruct records; [congruence | discriminate]
                           | simpl; lia]|].
    split; [reflexivity|]. split; [|split].
    + subst rows. apply Forall_map. eapply Forall_impl; [|exact Hexp].
      intros a Ha. cbv beta. rewrite (tokenize_record_row a Ha).
      now destruct a.
    + rewrite Hrecs. now apply no_duplicates_iff.
    + now rewrite Hrecs.
Qed.

Lemma X11_export_then_import_witness :
  exists text,
    handleDownloadResults
      [ {| success := true; message := "Account details verified successfully.";
           data := Some (sampleAccount "Ada Obi" "0123456781") |};
        {| success := false; message := "Invalid BVN.";
           data := Some (sampleAccount "Bob" "0123456782") |};
        {| success := true; message := "Account details verified successfully.";
           data := Some (sampleAccount "Chi" "0123456783") |} ] = Some text
    /\ linesOf text
       = ["beneficiaryName,bankName,accountNumber,bvn";
          "Ada Obi,Zenith,0123456781,22345678901";
          "Chi,Zenith,0123456783,22345678901"]
    /\ parseCsv text
       = Accepted [sampleAccount "Ada Obi" "0123456781";
                   sampleAccount "Chi" "0123456783"].
Proof.
  apply (X11_export_then_import
      [ {| success := true; message := "Account details verified successfully.";
           data := Some (sampleAccount "Ada Obi" "0123456781") |};
        {| success := false; message := "Invalid BVN.";
           data := Some (sampleAccount "Bob" "0123456782") |};
        {| success := true; message := "Account details verified successfully.";
           data := Some (sampleAccount "Chi" "0123456783") |} ]).
  - discriminate.
  - vm_compute. repeat constructor.
  - reflexivity.
Defined.

(** X12. The successful-only file is written without escaping: for a
    record whose fields hold no double-quote, the row reads back with
    four cells plus one for every comma inside a field, so a comma in
    a name or bank name shifts the columns that follow. *)
Theorem X12_success_row_cells (r : VerificationResultData) :
  Forall (fun f => hasChar dquote f = false) (recordFields r) ->
  length (robustParseCsvRow (successRow r))
  = 4 + list_sum (map (countChar comma) (recordFields r)).
Proof.
  unfold recordFields, successRow. intros H.
  inversion H as [|? ? Q1 Ha]; subst. inversion Ha as [|? ? Q2 Hb]; subst.
  inversion Hb as [|? ? Q3 Hc]; subst. inversion Hc as [|? ? Q4 _]; subst.
  rewrite !join_comma_cons.
  change (join "," [fieldOr (data r) bvn]) with (fieldOr (data r) bvn).
  rewrite robustParseCsvRow_unquoted, length_map, splitOn_length.
  - repeat (rewrite countChar_app; cbn [countChar]).
    rewrite Ascii.eqb_refl. unfold list_sum. cbn [map fold_right]. lia.
  - repeat (rewrite hasChar_app; cbn [hasChar]).
    rewrite Q1, Q2, Q3, Q4. reflexivity.
Qed.

Lemma X12_success_row_cells_witness :
  length (robustParseCsvRow (successRow formalNameOutcome)) = 5.
Proof.
  apply (X12_success_row_cells formalNameOutcome). repeat constructor.
Defined.


(** * Failures of the verification service *)

Section ServiceFacts.

Variable World : Type.
Variable generateContent :
  AccountDetails -> World -> GeminiService.Reply * World.

Lemma verifyOne_service (account : AccountDetails) (w : World) :
  verifyOne World (GeminiService.verifyAccountDetails World generateContent)
    account w
  = (outcomeOfReply account (fst (generateContent account w)),
     snd (generateContent account w)).
Proof.
  unfold verifyOne, GeminiService.verifyAccountDetails.
  destruct (generateContent account w) as [[e|[s|] [m|] d] w']; reflexivity.
Qed.

(** X13. With the verification service of this repository every
    failure, whether the request fails, the reply does not parse or
    the reply has the wrong shape, reaches the handlers as the one
    error with the service-unavailable text.  So in a bulk run the
    outcome at the position of a record is the parsed reply when it
    has a boolean success and a string message, and otherwise the
    failed outcome with that text and the submitted record; the single
    verification shows the same and always ends with the modal open
    and the verifying flag cleared. *)
Theorem X13_service_failures (accounts : list AccountDetails) (w : World) :
  let verify := GeminiService.verifyAccountDetails World generateContent in
  (forall details w0,
      fst (verify details w0)
      = inr (ErrorObject GeminiService.unavailableMessage)
      \/ exists r, fst (verify details w0) = inl r)
  /\ (forall i account,
        nth_error accounts i = Some account ->
        nth_error (fst (verifyLoop World verify accounts [] w)) i
        = Some (outcomeOfReply account
                  (fst (generateContent account
                          (worldBefore World verify accounts w i)))))
  /\ (forall details st w0,
        let st' := fst (handleVerification World verify details st w0) in
        verificationResult (ui st')
        = Some (outcomeOfReply details (fst (generateContent details w0)))
        /\ isModalOpen (ui st') = true
        /\ isVerifying st' = false).
Proof.
  intros verify. split; [|split].
  - intros details w0. unfold verify, GeminiService.verifyAccountDetails.
    destruct (generateContent details w0) as [[e|[s|] [m|] d] w'];
      simpl; eauto.
  - intros i account H.
    rewrite (verifyLoop_nth World verify accounts w i account H).
    unfold verify. now rewrite verifyOne_service.
  - intros details st w0.
    unfold handleVerification, verify, GeminiService.verifyAccountDetails.
    destruct (generateContent details w0) as [[e|[s|] [m|] d] w'];
      simpl; auto.
Qed.

End ServiceFacts.

Lemma X13_service_failures_witness :
  nth_error
    (fst (verifyLoop nat
            (GeminiService.verifyAccountDetails nat secondReplyMalformed)
            [sampleAccount "Ada" "0123456781";
             sampleAccount "Bob" "0123456782";
             sampleAccount "Chi" "0123456783"] [] 0)) 1
  = Some {| success := false;
            message := "The verification service is currently unavailable. Please try again later.";
            data := Some (sampleAccount "Bob" "0123456782") |}.
Proof.
  exact (proj1 (proj2 (X13_service_failures nat secondReplyMalformed
           [sampleAccount "Ada" "0123456781";
            sampleAccount "Bob" "0123456782";
            sampleAccount "Chi" "0123456783"] 0))
           1 (sampleAccount "Bob" "0123456782") eq_refl).
Defined.

(** * The results table *)

Lemma filter_partition_length {A} (f : A -> bool) (l : list A) :
  length (filter f l) + length (filter (fun x => negb (f x)) l) = length l.
Proof.
  induction l as [|x l IH]; [reflexivity|].
  simpl. destruct (f x); simpl; lia.
Qed.

(** X14. The three counters of the results table agree: the failed
    count is the number of outcomes that did not succeed, and
    successful plus failed is the total. *)
Theorem X14_result_counts (results : list VerificationResultData) :
  BulkResultsDisplay.failedCount results
  = length (filter (fun r => negb (success r)) results)
  /\ BulkResultsDisplay.successfulCount results
     + BulkResultsDisplay.failedCount results
     = length results.
Proof.
  unfold BulkResultsDisplay.failedCount, BulkResultsDisplay.successfulCount.
  pose proof (filter_partition_length success results). lia.
Qed.

(** X15. Clicking a column header always sorts by that column, and
    clicking the same header again and again alternates between
    ascending and descending, starting with ascending unless the
    column was already sorted ascending. *)
Theorem X15_request_sort_alternates
    (sortConfig : option BulkResultsDisplay.SortConfig)
    (k : BulkResultsDisplay.SortKey) :
  let once := BulkResultsDisplay.requestSort sortConfig k in
  let twice := BulkResultsDisplay.requestSort once k in
  option_map BulkResultsDisplay.key once = Some k
  /\ option_map BulkResultsDisplay.direction twice
     <> option_map BulkResultsDisplay.direction once
  /\ BulkResultsDisplay.requestSort twice k = once
  /\ (forall k', k' <> k ->
        BulkResultsDisplay.requestSort once k'
        = Some {| BulkResultsDisplay.key := k';
                  BulkResultsDisplay.direction :=
                    BulkResultsDisplay.Ascending |}).
Proof.
  destruct sortConfig as [[k0 d]|]; [destruct d, k0|]; destruct k; cbn;
    repeat split; try discriminate;
    intros k' Hk'; destruct k'; try reflexivity; congruence.
Qed.

Lemma valueLt_asym (a b : BulkResultsDisplay.SortValue) :
  BulkResultsDisplay.valueLt a b = true ->
  BulkResultsDisplay.valueLt b a = false.
Proof.
  destruct a as [x|x], b as [y|y]; simpl; try discriminate.
  - intros H. apply Nat.ltb_lt in H. apply Nat.ltb_ge. lia.
  - unfold String.ltb. rewrite (String.compare_antisym y x).
    now destruct (String.compare x y).
Qed.

Lemma compareFn_Gt (c : BulkResultsDisplay.SortConfig)
    (x y : VerificationResultData) :
  BulkResultsDisplay.compareFn c x y = Gt ->
  BulkResultsDisplay.inOrder c y x.
Proof.
  unfold BulkResultsDisplay.compareFn, BulkResultsDisplay.inOrder.
  destruct (BulkResultsDisplay.valueLt
              (BulkResultsDisplay.getSortValue x _)
              (BulkResultsDisplay.getSortValue y _)) eqn:E1;
    destruct (BulkResultsDisplay.valueLt
              (BulkResultsDisplay.getSortValue y _)
              (BulkResultsDisplay.getSortValue x _)) eqn:E2;
    destruct (BulkResultsDisplay.direction c);
    intros H; try discriminate H; try reflexivity.
  now rewrite (valueLt_asym _ _ E1) in E2.
Qed.

Lemma compareFn_not_Gt (c : BulkResultsDisplay.SortConfig)
    (x y : VerificationResultData) :
  BulkResultsDisplay.compareFn c x y <> Gt ->
  BulkResultsDisplay.inOrder c x y.
Proof.
  unfold BulkResultsDisplay.compareFn, BulkResultsDisplay.inOrder.
  destruct (BulkResultsDisplay.valueLt
              (BulkResultsDisplay.getSortValue x _)
              (BulkResultsDisplay.getSortValue y _)) eqn:E1;
    destruct (BulkResultsDisplay.valueLt
              (BulkResultsDisplay.getSortValue y _)
              (BulkResultsDisplay.getSortValue x _)) eqn:E2;
    destruct (BulkResultsDisplay.direction c);
    intros H; try congruence.
  now rewrite (valueLt_asym _ _ E1) in E2.
Qed.

Section InsertionSort.

Variable A : Type.
Variable cmp : A -> A -> comparison.
Variable R : A -> A -> Prop.
Hypothesis cmp_Gt : forall x y, cmp x y = Gt -> R y x.
Hypothesis cmp_not_Gt : forall x y, cmp x y <> Gt -> R x y.

Lemma insertSorted_perm (x : A) (l : list A) :
  Permutation (x :: l) (BulkResultsDisplay.insertSorted cmp x l).
Proof.
  induction l as [|y r IH]; simpl; [apply Permutation_refl|].
  destruct (cmp x y); try apply Permutation_refl.
  eapply perm_trans; [apply perm_swap | now apply perm_skip].
Qed.

Lemma sortWith_perm (l : list A) :
  Permutation l (BulkResultsDisplay.sortWith cmp l).
Proof.
  induction l as [|x l IH]; simpl; [constructor|].
  eapply perm_trans; [apply perm_skip, IH | apply insertSorted_perm].
Qed.

Lemma insertSorted_hd (x y : A) (l : list A) :
  R y x -> HdRel R y l ->
  HdRel R y (BulkResultsDisplay.insertSorted cmp x l).
Proof.
  intros Hyx Hl. destruct l as [|z r]; simpl; [now constructor|].
  destruct (cmp x z); constructor; auto; now inversion Hl.
Qed.

Lemma insertSorted_sorted (x : A) (l : list A) :
  Sorted R l -> Sorted R (BulkResultsDisplay.insertSorted cmp x l).
Proof.
  induction 1 as [|y r Hr IH Hhd]; simpl; [repeat constructor|].
  destruct (cmp x y) eqn:E.
  - constructor; [now constructor|]. constructor. apply cmp_not_Gt. congruence.
  - constructor; [now constructor|]. constructor. apply cmp_not_Gt. congruence.
  - constructor; [exact IH|]. apply insertSorted_hd; [|exact Hhd].
    now apply cmp_Gt.
Qed.

Lemma sortWith_sorted (l : list A) :
  Sorted R (BulkResultsDisplay.sortWith cmp l).
Proof.
  induction l as [|x l IH]; simpl; [constructor|].
  now apply insertSorted_sorted.
Qed.

End InsertionSort.

(** X16. The table shows every outcome exactly once, whatever the
    sort configuration, and with a configuration each row and the next
    are in the requested order of the chosen column: never decreasing
    when ascending, never increasing when descending. *)
Theorem X16_sorted_results (results : list VerificationResultData)
    (sortConfig : option BulkResultsDisplay.SortConfig) :
  Permutation results (BulkResultsDisplay.sortedResults results sortConfig)
  /\ match sortConfig with
     | Some c =>
         Sorted (BulkResultsDisplay.inOrder c)
           (BulkResultsDisplay.sortedResults results sortConfig)
     | None => BulkResultsDisplay.sortedResults results sortConfig = results
     end.
Proof.
  destruct sortConfig as [c|]; simpl.
  - split; [apply sortWith_perm|].
    apply sortWith_sorted;
      [apply compareFn_Gt | apply compareFn_not_Gt].
  - split; [apply Permutation_refl | reflexivity].
Qed.

(** * The bank search of the dashboard *)

Lemma lowerChar_idem (c : ascii) : lowerChar (lowerChar c) = lowerChar c.
Proof.
  destruct c as [b0 b1 b2 b3 b4 b5 b6 b7].
  destruct b0, b1, b2, b3, b4, b5, b6, b7; reflexivity.
Qed.

Lemma toLowerCase_idem (s : string) :
  toLowerCase (toLowerCase s) = toLowerCase s.
Proof.
  induction s as [|c r IH]; [reflexivity|].
  simpl. now rewrite lowerChar_idem, IH.
Qed.

Lemma startsWith_iff (s p : string) :
  NetworkStatusDashboard.startsWith s p = true
  <-> exists post, s = p ++ post.
Proof.
  revert s. induction p as [|a p IH]; intros s.
  - destruct s; simpl; split; eauto.
  - destruct s as [|b s]; simpl.
    + split; [discriminate | intros [post H]; discriminate].
    + rewrite andb_true_iff, IH. split.
      * intros [E [post ->]]. apply Ascii.eqb_eq in E. subst. eauto.
      * intros [post H]. injection H as -> ->.
        split; [apply Ascii.eqb_refl | eauto].
Qed.

(** The substring test is the one of [includes]. *)
Lemma includesString_iff (s sub : string) :
  NetworkStatusDashboard.includesString s sub = true
  <-> exists pre post, s = pre ++ sub ++ post.
Proof.
  induction s as [|c r IH].
  - cbn [NetworkStatusDashboard.includesString]. rewrite orb_false_r.
    rewrite startsWith_iff. split.
    + intros [post H]. exists "", post. exact H.
    + intros [pre [post H]]. destruct pre; [eauto | discriminate].
  - cbn [NetworkStatusDashboard.includesString].
    rewrite orb_true_iff, startsWith_iff, IH. split.
    + intros [[post H]|[pre [post H]]].
      * exists "", post. exact H.
      * exists (String c pre), post. simpl. now rewrite H.
    + intros [pre [post H]]. destruct pre as [|d pre].
      * left. exists post. exact H.
      * right. injection H as _ H. eauto.
Qed.

(** X17. The bank search: a bank is listed exactly when it is one of
    the statuses and its name contains the search term, both taken in
    lower case; the listed banks keep their order.  So an empty term
    lists every bank, and the case of the term makes no difference. *)
Theorem X17_bank_search
    (statuses : list NetworkStatusDashboard.BankStatus) (term : string) :
  (forall b,
      In b (NetworkStatusDashboard.filteredStatuses statuses term)
      <-> In b statuses
          /\ exists pre post,
               toLowerCase (NetworkStatusDashboard.name b)
               = pre ++ toLowerCase term ++ post)
  /\ NetworkStatusDashboard.filteredStatuses statuses "" = statuses
  /\ NetworkStatusDashboard.filteredStatuses statuses (toLowerCase term)
     = NetworkStatusDashboard.filteredStatuses statuses term.
Proof.
  unfold NetworkStatusDashboard.filteredStatuses. split; [|split].
  - intros b. now rewrite filter_In, includesString_iff.
  - apply filter_all. apply Forall_forall. intros b _.
    apply includesString_iff. now exists "", (toLowerCase (NetworkStatusDashboard.name b)).
  - now rewrite toLowerCase_idem.
Qed.

(** * The bank-list cache *)

Section CacheFacts.

Variable World : Type.
Variable requestBankData : World -> option (list BankList.BankData) * World.
Variable sortByName : list BankList.BankData -> list BankList.BankData.

Lemma fetchRepeatedly_cached (n : nat) (cached : list BankList.BankData)
    (w : World) :
  BankList.fetchRepeatedly World requestBankData sortByName n (Some cached) w
  = (repeat cached n, Some cached, w).
Proof.
  induction n as [|n IH]; [reflexivity|].
  cbn [BankList.fetchRepeatedly BankList.fetchBankData]. now rewrite IH.
Qed.

(** X18. The bank list is requested at most once: of any number of
    calls made one after the other with an empty cache, only the first
    reaches the model, and every call returns the list the first one
    produced, the sorted reply or, when that one request failed, the
    sorted fallback list, even if the model would answer later. *)
Theorem X18_bank_list_cached_forever (n : nat) (w : World) :
  let first :=
    sortByName (match fst (requestBankData w) with
                | Some bankData => bankData
                | None => BankList.fallbackBanks
                end) in
  BankList.fetchRepeatedly World requestBankData sortByName (S n) None w
  = (repeat first (S n), Some first, snd (requestBankData w)).
Proof.
  cbn [BankList.fetchRepeatedly BankList.fetchBankData].
  destruct (requestBankData w) as [reply w']. cbn [fst snd].
  now rewrite fetchRepeatedly_cached.
Qed.

End CacheFacts.

Lemma X18_bank_list_cached_forever_witness :
  BankList.fetchRepeatedly nat BankList.failsOnce (fun l => l) 3 None 0
  = (repeat BankList.fallbackBanks 3, Some BankList.fallbackBanks, 1).
Proof.
  exact (X18_bank_list_cached_forever nat BankList.failsOnce (fun l => l) 2 0).
Defined.

(** * The lookup default is never used *)

Lemma rightmost_exists (header : list string) (name : string) :
  In name header -> exists i, rightmost header name i.
Proof.
  induction header as [|col rest IH]; [contradiction|].
  intros Hin. destruct (in_dec string_dec name rest) as [Hrest|Hnot].
  - destruct (IH Hrest) as (i & Hi & Hn & Hlast). exists (S i).
    split; [simpl; lia|]. split; [exact Hn|].
    intros [|j] Hij Hj; [lia|]. simpl in *. apply Hlast; lia.
  - destruct Hin as [->|Hin]; [|contradiction]. exists 0.
    split; [simpl; lia|]. split; [reflexivity|].
    intros [|j] Hij Hj; [lia|]. simpl in *. intros E. apply Hnot.
    rewrite <- E. apply nth_In. lia.
Qed.

Lemma required_in_header (header : list string) (name : string) :
  missingHeaders header = [] -> In name requiredHeaders -> In name header.
Proof.
  intros Hm Hreq. destruct (in_dec string_dec name header) as [H|H];
    [exact H|].
  assert (Hin : In name (missingHeaders header))
    by (apply missingHeaders_In; now split).
  now rewrite Hm in Hin.
Qed.

(** X19. Under the two guards of the parser the empty-string default
    of the field lookup is never used: when the header holds the four
    required names and a row has as many cells as the header, each of
    the four fields of the record is a cell of that row, the one in
    the rightmost column of the header that bears the field's name. *)
Theorem X19_fields_are_cells (headerLine line : string) (name : string) :
  let header := robustParseCsvRow headerLine in
  let data := robustParseCsvRow line in
  missingHeaders header = [] ->
  length data = length header ->
  In name requiredHeaders ->
  exists i,
    rightmost header name i
    /\ nth_error data i
       = Some (fieldByName name (accountOf data (headerMapOf header)))
    /\ In (fieldByName name (accountOf data (headerMapOf header))) data.
Proof.
  intros header data Hm Hlen Hreq.
  destruct (rightmost_exists header name (required_in_header _ _ Hm Hreq))
    as [i Hi].
  exists i. split; [exact Hi|].
  rewrite (fieldByName_accountOf _ _ _ Hreq).
  rewrite (cell_rightmost header data name i
             (robustParseCsvRow_trimmed headerLine) Hi).
  destruct Hi as (Hlt & _ & _). rewrite <- Hlen in Hlt.
  split; [now apply nth_error_nth' | now apply nth_In].
Qed.

Lemma X19_fields_are_cells_witness :
  exists i,
    rightmost (robustParseCsvRow "bvn,note,accountNumber,bankName,beneficiaryName")
      "accountNumber" i
    /\ nth_error (robustParseCsvRow "22345678901,vip,0123456789,Zenith,Ada") i
       = Some "0123456789"
    /\ In "0123456789"
         (robustParseCsvRow "22345678901,vip,0123456789,Zenith,Ada").
Proof.
  apply (X19_fields_are_cells
           "bvn,note,accountNumber,bankName,beneficiaryName"
           "22345678901,vip,0123456789,Zenith,Ada" "accountNumber").
  - reflexivity.
  - reflexivity.
  - simpl. tauto.
Defined.
